(** * PyLogDecorate: call interception and logger binding

    A shallow embedding of [PyLogDecorate/log.py]: the helpers
    [keyIsTrue], [haskey], [toStr], [toShortStr], the decorators
    [LogCallBase] / [LogCall] (the closure [wrapped_f] built by [hook]) and
    the class decorator [LogClass] (its [__call__] and the constructor
    [_init] it installs).

    Python objects are kept in an explicit store; every operation that can
    raise returns a [completion]; [try]/[except]/[finally] are combinators
    whose control flow follows the Python semantics (a [return] or [raise]
    inside [finally] replaces the exception in flight). *)

From stdpp Require Import base strings gmap list pretty.
From Stdlib Require Import ZArith Lia.

Local Open Scope Z_scope.

(** ** Values *)

(** A class is named by its [__module__] and its [__name__]. *)
Record clsid := ClsId { cls_module : string; cls_name : string }.

Inductive pyval :=
  | VNone
  | VBool (b : bool)
  | VInt (n : Z)
  | VStr (s : string)
  | VLogger (name : string)      (* the object logging.getLogger(name) *)
  | VType (c : clsid)            (* a class object *)
  | VObj (c : clsid) (r : nat)   (* an instance of class c, stored at r *)
  | VOpaque (c : clsid).         (* an object of class c that is only passed
                                    around: a bound method, a decorator *)

(** An exception object: [exc_id] stands for its identity;
    [exc_is_Exception] tells whether it is an instance of [Exception]
    (it is not for [KeyboardInterrupt], [SystemExit], ...); [exc_truthy] is
    its truth value, which is [True] unless its class defines [__bool__] or
    [__len__]. *)
Record exn := Exn {
  exc_id : nat;
  exc_type : string;
  exc_msg : string;
  exc_is_Exception : bool;
  exc_truthy : bool
}.

(** An exception raised by the interpreter or a library. *)
Definition builtin_exn (ty msg : string) : exn :=
  {| exc_id := 0; exc_type := ty; exc_msg := msg;
     exc_is_Exception := true; exc_truthy := true |}.

Inductive completion (A : Type) :=
  | Normal (a : A)
  | Raise (e : exn).
Arguments Normal {A} a.
Arguments Raise {A} e.

(** ** The store *)

(** [inst_attrs] is the instance's own [__dict__]; [inst_str] is what the
    instance's own [__str__] does, when its class defines one; [inst_class]
    is what the class of the instance and its bases provide under each
    name (class attributes, methods), as the instance found them when it
    was created. *)
Record instance := Instance {
  inst_attrs : gmap string pyval;
  inst_str : option (completion string);
  inst_class : string → option pyval
}.

(** An instance of which only the own dictionary matters: its class
    provides none of the attributes that are looked up on it. *)
Definition bare (attrs : gmap string pyval) (str : option (completion string))
    : instance :=
  {| inst_attrs := attrs; inst_str := str; inst_class := λ _, None |}.

(** One call of [logger.debug(msg, extra=...)]. *)
Record log_record := LogRecord {
  rec_logger : string;
  rec_msg : string;
  rec_extra : list (string * pyval)
}.

Record store := Store {
  st_instances : gmap nat instance;
  st_levels : gmap string pyval;     (* logger name -> level set by setLevel *)
  st_records : list log_record      (* debug calls, oldest first *)
}.

Definition empty_store : store :=
  {| st_instances := ∅; st_levels := ∅; st_records := [] |}.

(** ** Computations: state and exceptions *)

Definition py (A : Type) : Type := store → completion A * store.

Definition ret {A} (a : A) : py A := λ st, (Normal a, st).
Definition raise {A} (e : exn) : py A := λ st, (Raise e, st).
Definition bind {A B} (m : py A) (k : A → py B) : py B :=
  λ st, match m st with
        | (Normal a, st') => k a st'
        | (Raise e, st') => (Raise e, st')
        end.
Definition lift {A} (c : completion A) : py A := λ st, (c, st).

Declare Scope py_scope.
Delimit Scope py_scope with py.
Notation "x <- m ;; k" := (bind m (λ x, k))
  (at level 100, m at next level, right associativity) : py_scope.
Notation "m ;;; k" := (bind m (λ _, k))
  (at level 100, right associativity) : py_scope.
Local Open Scope py_scope.

(** [try: m except: h] with a bare [except], which catches everything. *)
Definition try_except_all {A} (m : py A) (h : exn → py A) : py A :=
  λ st, match m st with
        | (Normal a, st') => (Normal a, st')
        | (Raise e, st') => h e st'
        end.

(** ** What lies outside the repository *)

(** [relpath] is [os.path.relpath], which depends on the working directory
    and can raise; [opaque_str] is the display string of objects whose
    [__str__] the repository does not define (loggers, instances of
    classes without [__str__]); [builtin_attr] gives the attributes that
    the built-in types provide on the values that are not instances of
    the program's classes ([real] on an integer, [name] on a logger,
    [__doc__] on any of them); [log_py] and
    [log_module] are the file name and the module name under which
    [log.py] itself is loaded. *)
Record platform := Platform {
  relpath : string → completion string;
  opaque_str : pyval → string;
  builtin_attr : pyval → string → option pyval;
  log_py : string;
  log_module : string
}.

(** ** Policies *)

(** The [args] of a decorator: [None] or a dictionary. *)
Definition policy : Type := option (gmap string pyval).

(** [not dic] *)
Definition policy_falsy (dic : policy) : bool :=
  match dic with
  | None => true
  | Some d => bool_decide (d = ∅)
  end.

(** [v == True]: holds of [True] and of the integer [1]. *)
Definition eq_True (v : pyval) : bool :=
  match v with
  | VBool b => b
  | VInt n => bool_decide (n = 1)
  | _ => false
  end.

Definition keyIsTrue (dic : policy) (key : string) : bool :=
  match dic with
  | None => false
  | Some d =>
      if bool_decide (d = ∅) then false
      else match d !! key with
           | Some v => eq_True v
           | None => false
           end
  end.

Definition haskey (dic : policy) (key : string) : bool :=
  match dic with
  | None => false
  | Some d =>
      if bool_decide (d = ∅) then false
      else bool_decide (is_Some (d !! key))
  end.

(** [dic[key]] *)
Definition subscript (dic : policy) (key : string) : completion pyval :=
  match dic with
  | None => Raise (builtin_exn "TypeError" "'NoneType' object is not subscriptable")
  | Some d =>
      match d !! key with
      | Some v => Normal v
      | None => Raise (builtin_exn "KeyError" key)
      end
  end.

(** ** Built-in operations on values *)

(** A dictionary in insertion order. *)
Fixpoint dict_get {A} (d : list (string * A)) (k : string) : option A :=
  match d with
  | [] => None
  | (k', a) :: d' => if bool_decide (k' = k) then Some a else dict_get d' k
  end.

Fixpoint dict_set {A} (d : list (string * A)) (k : string) (a : A) : list (string * A) :=
  match d with
  | [] => [(k, a)]
  | (k', a') :: d' =>
      if bool_decide (k' = k) then (k, a) :: d' else (k', a') :: dict_set d' k a
  end.

Definition builtins (name : string) : clsid :=
  {| cls_module := "builtins"; cls_name := name |}.

(** [type(v)] *)
Definition type_of (v : pyval) : pyval :=
  match v with
  | VNone => VType (builtins "NoneType")
  | VBool _ => VType (builtins "bool")
  | VInt _ => VType (builtins "int")
  | VStr _ => VType (builtins "str")
  | VLogger _ => VType {| cls_module := "logging"; cls_name := "Logger" |}
  | VType _ => VType (builtins "type")
  | VObj c _ => VType c
  | VOpaque c => VType c
  end.

(** [inspect.isclass(v)], that is [isinstance(v, type)] *)
Definition isclass (v : pyval) : bool :=
  match v with
  | VType _ => true
  | _ => false
  end.

(** [v.__class__.__module__] and [v.__class__.__name__] *)
Definition class_of (v : pyval) : clsid :=
  match type_of v with
  | VType c => c
  | _ => builtins "object"
  end.

(** Truth value of [v]. *)
Definition truthy (v : pyval) : bool :=
  match v with
  | VNone => false
  | VBool b => b
  | VInt n => negb (bool_decide (n = 0))
  | VStr s => negb (bool_decide (s = ""))
  | VLogger _ | VType _ | VObj _ _ | VOpaque _ => true
  end.

Definition get_instance (r : nat) (st : store) : instance :=
  default (bare ∅ None) (st_instances st !! r).

(** The entry [name] of the [__dict__] of [v], when [v] is an instance
    that has one. *)
Definition instance_attr (v : pyval) (name : string) (st : store) : option pyval :=
  match v with
  | VObj _ r => inst_attrs (get_instance r st) !! name
  | _ => None
  end.

(** [v.name = x] *)
Definition setattr (v : pyval) (name : string) (x : pyval) : py unit :=
  match v with
  | VObj _ r =>
      λ st, let i := get_instance r st in
            (Normal tt,
             {| st_instances :=
                  <[r := {| inst_attrs := <[name := x]> (inst_attrs i);
                            inst_str := inst_str i;
                            inst_class := inst_class i |}]> (st_instances st);
                st_levels := st_levels st;
                st_records := st_records st |})
  | _ => raise (builtin_exn "AttributeError" name)
  end.

Definition qualname (c : clsid) : string :=
  if bool_decide (cls_module c = "builtins") then cls_name c
  else cls_module c +:+ "." +:+ cls_name c.

Section Platform.
Context (P : platform).

(** The attribute [name] of [v], when it has one: [__class__] is the type
    of [v] for every value; an instance then shows its own dictionary and,
    after it, what its class provides; any other value shows what its
    built-in type provides. Attributes computed by a property or by
    [__getattr__] are not represented. *)
Definition lookup_attr (v : pyval) (name : string) (st : store) : option pyval :=
  if bool_decide (name = "__class__") then Some (type_of v)
  else
    match v with
    | VObj _ r =>
        match instance_attr v name st with
        | Some x => Some x
        | None => inst_class (get_instance r st) name
        end
    | _ => builtin_attr P v name
    end.

(** [hasattr(v, name)] *)
Definition hasattr (v : pyval) (name : string) : py bool :=
  λ st, (Normal (bool_decide (is_Some (lookup_attr v name st))), st).

(** [v.name] *)
Definition getattr (v : pyval) (name : string) : py pyval :=
  λ st, match lookup_attr v name st with
        | Some x => (Normal x, st)
        | None => (Raise (builtin_exn "AttributeError" name), st)
        end.

(** [getattr(v, name, dflt)] *)
Definition getattr_default (v : pyval) (name : pyval) (dflt : pyval) : py pyval :=
  match name with
  | VStr n => λ st, (Normal (default dflt (lookup_attr v n st)), st)
  | _ => raise (builtin_exn "TypeError" "attribute name must be string")
  end.

(** [str(v)] *)
Definition py_str (v : pyval) : py string :=
  match v with
  | VNone => ret "None"
  | VBool true => ret "True"
  | VBool false => ret "False"
  | VInt n => ret (pretty n)
  | VStr s => ret s
  | VLogger _ => ret (opaque_str P v)
  | VType c => ret ("<class '" +:+ qualname c +:+ "'>")
  | VObj _ r =>
      λ st, match inst_str (get_instance r st) with
            | Some c => (c, st)
            | None => (Normal (opaque_str P v), st)
            end
  | VOpaque _ => ret (opaque_str P v)
  end.

Definition toStr (obj : pyval) : py string :=
  try_except_all (py_str obj) (λ _, py_str (type_of obj)).

Definition toShortStr (obj : pyval) (max : Z) : py string :=
  s <- toStr obj ;;
  if Z.of_nat (String.length s) >? max then toStr (type_of obj)
  else ret s.

(** The level names [logging] knows. *)
Definition level_names : list (string * Z) :=
  [("CRITICAL", 50); ("FATAL", 50); ("ERROR", 40); ("WARN", 30);
   ("WARNING", 30); ("INFO", 20); ("DEBUG", 10); ("NOTSET", 0)].

(** [logging._checkLevel(level)]: an integer (a boolean is one) is taken
    as it is, a string must be a known level name, and anything else is
    refused once [str(level) == level] has been found false. *)
Definition checkLevel (level : pyval) : py pyval :=
  match level with
  | VInt _ | VBool _ => ret level
  | VStr s =>
      match dict_get level_names s with
      | Some n => ret (VInt n)
      | None => raise (builtin_exn "ValueError" ("Unknown level: '" +:+ s +:+ "'"))
      end
  | VObj _ _ =>
      py_str level ;;;
      raise (builtin_exn "TypeError" "Level not an integer or a valid string")
  | _ => raise (builtin_exn "TypeError" "Level not an integer or a valid string")
  end.

(** [logger.setLevel(level)] *)
Definition setLevel (logger level : pyval) : py unit :=
  match logger with
  | VLogger name =>
      rv <- checkLevel level ;;
      λ st, (Normal tt,
             {| st_instances := st_instances st;
                st_levels := <[name := rv]> (st_levels st);
                st_records := st_records st |})
  | _ => raise (builtin_exn "AttributeError" "setLevel")
  end.

End Platform.

(** ** Callables and interceptors *)

(** Keyword arguments of a call, in call order. *)
Definition kwargs : Type := list (string * pyval).

(** The caller's frame: [f_code.co_filename] and [f_lineno]. *)
Record frame := Frame { co_filename : string; f_lineno : Z }.

(** A callable [fn] as the decorators see it: [fn.__name__] and
    [fn.__module__] (absent on some callables), [fn.__class__.__name__],
    and what calling it with positional and keyword arguments does. *)
Record pyfunc := PyFunc {
  fn_name : option string;
  fn_module : option string;
  fn_class_name : string;
  fn_body : list pyval → kwargs → py pyval
}.

(** The signature of [log_f] after [self]. *)
Definition hook_fn : Type :=
  pyval → frame → pyfunc → list pyval → kwargs → pyval → py unit.

(** [LogCallBase], [LogCall], or a subclass that overrides [log_f]. *)
Inductive kind :=
  | KBase
  | KLogCall
  | KCustom (h : hook_fn).

Record interceptor := Interceptor { i_kind : kind; i_args : policy }.

(** [LogCallBase.__init__]: a falsy [args] becomes the empty dictionary. *)
Definition LogCallBase_init (k : kind) (args : policy) : interceptor :=
  {| i_kind := k;
     i_args := if policy_falsy args then Some ∅ else args |}.

Definition LogCallBase (args : policy) : interceptor := LogCallBase_init KBase args.
Definition LogCall (args : policy) : interceptor := LogCallBase_init KLogCall args.

Definition getLogger (name : string) : pyval := VLogger name.

(** Looking up [logger.debug]: only loggers have it. *)
Definition debug_method (logger : pyval) : py string :=
  match logger with
  | VLogger name => ret name
  | _ => raise (builtin_exn "AttributeError" "debug")
  end.

(** [logging.Logger.debug(msg, extra=extra)] on the logger called [name]:
    the call is recorded; filtering by level and output belong to the
    logging backend. *)
Definition emit_debug (name msg : string) (extra : list (string * pyval)) : py unit :=
  λ st, (Normal tt,
         {| st_instances := st_instances st;
            st_levels := st_levels st;
            st_records := st_records st ++ [LogRecord name msg extra] |}).

(** [sys._getframe(1)]: fails when the wrapper has no calling frame. *)
Definition sys_getframe (caller : option frame) : py frame :=
  match caller with
  | Some fr => ret fr
  | None => raise (builtin_exn "ValueError" "call stack is not deep enough")
  end.

(** [fn.__module__] and [fn.__name__] *)
Definition get_module (fn : pyfunc) : py string :=
  match fn_module fn with
  | Some m => ret m
  | None => raise (builtin_exn "AttributeError" "__module__")
  end.

Definition get_name (fn : pyfunc) : py string :=
  match fn_name fn with
  | Some n => ret n
  | None => raise (builtin_exn "AttributeError" "__name__")
  end.

Fixpoint mapM {A B} (f : A → py B) (l : list A) : py (list B) :=
  match l with
  | [] => ret []
  | a :: l' => b <- f a ;; bs <- mapM f l' ;; ret (b :: bs)
  end.

(** [try: m except Exception as e: h e] *)
Definition try_except_Exception {A} (m : py A) (h : exn → py A) : py A :=
  λ st, match m st with
        | (Normal a, st') => (Normal a, st')
        | (Raise e, st') =>
            if exc_is_Exception e then h e st' else (Raise e, st')
        end.

Section Interceptor.
Context (P : platform).

Definition trace_record (tag : string) (key : string)
    (self : interceptor) (logger instance : pyval) : py unit :=
  if haskey (i_args self) "tracename" && haskey (i_args self) "traceattr" then
    attrname <- lift (subscript (i_args self) "traceattr") ;;
    a <- getattr_default P instance attrname (VStr "") ;;
    traceattr <- py_str P a ;;
    name <- debug_method logger ;;
    tracename <- lift (subscript (i_args self) "tracename") ;;
    tn <- py_str P tracename ;;
    emit_debug name (tag +:+ ": " +:+ tn +:+ ", traceattr: " +:+ traceattr)
      [(key, tracename); ("traceattr", VStr traceattr)]
  else ret tt.

Definition trace_in : interceptor → pyval → pyval → py unit :=
  trace_record "tracein" "trace_in".

Definition trace_out : interceptor → pyval → pyval → py unit :=
  trace_record "traceout" "trace_out".

(** [LogCallBase.log_f]: [pass]. *)
Definition LogCallBase_log_f : hook_fn := λ _ _ _ _ _ _, ret tt.

(** [LogCall.log_f] *)
Definition LogCall_log_f : hook_fn := λ logger fr fn args kw result,
  shorts <- mapM (λ a, toShortStr P a 20) args ;;
  arglist <-
    (match kw with
     | [] => ret (String.concat ", " shorts)
     | _ :: _ =>
         items <- mapM (λ kv, k <- toStr P (VStr kv.1) ;;
                              v <- toShortStr P kv.2 20 ;;
                              ret (k +:+ "=" +:+ v)) kw ;;
         ret (String.concat ", " shorts +:+ ", " +:+ String.concat ", " items)
     end) ;;
  name <- debug_method logger ;;
  file <- lift (relpath P (co_filename fr)) ;;
  func <- get_name fn ;;
  r <- toShortStr P result 20 ;;
  emit_debug name
    (file +:+ " " +:+ pretty (f_lineno fr) +:+ ": " +:+ func
          +:+ "(" +:+ arglist +:+ ") -> " +:+ r) [].

Definition log_f (self : interceptor) : hook_fn :=
  match i_kind self with
  | KBase => LogCallBase_log_f
  | KLogCall => LogCall_log_f
  | KCustom h => h
  end.

(** Lines 61-72 of [wrapped_f]: the logger and the flag [classfn]. *)
Definition resolve_logger (fn : pyfunc) (args : list pyval) : py (pyval * bool) :=
  match args with
  | a0 :: _ =>
      if isclass (type_of a0) then
        has <- hasattr P a0 "logger" ;;
        logger <- (if has : bool then getattr P a0 "logger"
                   else m <- get_module fn ;;
                        ret (getLogger (m +:+ "." +:+ fn_class_name fn))) ;;
        ret (logger, true)
      else
        m <- get_module fn ;; ret (getLogger m, false)
  | [] =>
      m <- get_module fn ;; ret (getLogger m, false)
  end.

(** Lines 74-80: the call itself. The result is the pair of the locals
    [result] and [err] after the [try] statement. *)
Definition guarded_call (self : interceptor) (fn : pyfunc)
    (logger : pyval) (classfn : bool) (args : list pyval)
    : py (pyval * option exn) :=
  try_except_Exception
    ((if classfn then trace_in self logger (default VNone (head args)) else ret tt) ;;;
     result <- fn_body fn args [] ;;
     (if classfn then trace_out self logger (default VNone (head args)) else ret tt) ;;;
     ret (result, None))
    (λ e, ret (VStr "CRASHED", Some e)).

(** [del frame]: an error when [frame] was never assigned. *)
Definition del_frame (fr : option frame) : completion unit :=
  match fr with
  | Some _ => Normal tt
  | None => Raise (builtin_exn "UnboundLocalError" "frame")
  end.

(** Lines 83-92, the inner [try] statement: the local [err] after it and
    the exception in flight when it is left. *)
Definition guarded_log (self : interceptor) (fn : pyfunc) (caller : option frame)
    (logger : pyval) (args : list pyval) (result : pyval) (err : option exn)
    : store → (option exn * option exn) * store :=
  λ st,
    let handler (fr : option frame) (e : exn) (st' : store) :=
      if exc_is_Exception e then
        match del_frame fr with
        | Raise e' => ((err, Some e'), st')
        | Normal _ => ((Some e, Some e), st')     (* err = e; raise e *)
        end
      else ((err, Some e), st') in
    match sys_getframe caller st with
    | (Raise e, st1) => handler None e st1
    | (Normal fr, st1) =>
        match log_f self logger fr fn args [] result st1 with
        | (Raise e, st2) => handler (Some fr) e st2
        | (Normal _, st2) => ((err, None), st2)
        end
    end.

(** Lines 94-98, the [finally] clause: it raises or returns, so the
    exception in flight, if any, is dropped. [if err:] tests the truth
    value of [err], which is [None] or an exception object. *)
Definition finally_clause (err : option exn) (result : pyval)
    (in_flight : option exn) : py pyval :=
  match err with
  | Some e => if exc_truthy e then raise e else ret result
  | None => ret result
  end.

(** Lines 74-98: the call, the log, and the way out. *)
Definition logged_call (self : interceptor) (fn : pyfunc) (caller : option frame)
    (logger : pyval) (classfn : bool) (args : list pyval) : py pyval :=
  re <- guarded_call self fn logger classfn args ;;
  λ st, let '((err, in_flight), st') :=
          guarded_log self fn caller logger args re.1 re.2 st in
        finally_clause err re.1 in_flight st'.

Definition wrapped_f (self : interceptor) (fn : pyfunc) (caller : option frame)
    (args : list pyval) : py pyval :=
  lc <- resolve_logger fn args ;;
  logged_call self fn caller lc.1 lc.2 args.

End Interceptor.

(** The closure [wrapped_f] returned by [hook], with its attributes. *)
Record wrapped := Wrapped {
  w_self : interceptor;
  w_fn : pyfunc;
  w_subdecorate : option interceptor;   (* wrapped_f.__subdecorate__ *)
  w_loghook : bool                      (* wrapped_f.__loghook__ *)
}.

Definition hook (self : interceptor) (fn : pyfunc) : wrapped :=
  {| w_self := self;
     w_fn := fn;
     w_subdecorate :=
       if keyIsTrue (i_args self) "subdecorate" then Some self else None;
     w_loghook := true |}.

(** [LogCallBase.__call__]: decorating [fn]. *)
Definition LogCallBase_call (self : interceptor) (fn : pyfunc) : wrapped :=
  hook self fn.

(** Calling the closure, whose only parameter is the starred [args]: it
    takes no keyword. *)
Definition call_wrapped (P : platform) (w : wrapped) (caller : option frame)
    (args : list pyval) (kw : kwargs) : py pyval :=
  match kw with
  | [] => wrapped_f P (w_self w) (w_fn w) caller args
  | (k, _) :: _ =>
      raise (builtin_exn "TypeError"
               ("wrapped_f() got an unexpected keyword argument '" +:+ k +:+ "'"))
  end.

(** ** Classes *)

Local Set Warnings "-register-all".

(** What a class dictionary holds: a plain value, a function, a closure
    [wrapped_f], or the constructor [_init] that [LogClass] installs, which
    closes over the decorator's [args] and [original_init]. Plain values
    carry neither [__loghook__] nor [__subdecorate__] and are not
    callable: a class stored in the dictionary of another class is not
    represented. *)
Inductive member :=
  | MData (v : pyval)
  | MFunc (f : pyfunc)
  | MWrapped (w : wrapped)
  | MInit (args : policy) (original_init : option member).

(** A class: its [__mro__] as class names, itself first; its own
    [__dict__]; and the two attributes [LogClass] sets on it, each holding
    the [args] of the decorator object stored there. *)
Record class := Class {
  c_id : clsid;
  c_mro : list string;
  c_dict : list (string * member);
  c_loghook : option policy;
  c_subdecorate : option policy
}.

(** The classes defined so far, by name. *)
Abbreviation classtable := (gmap string class).

(** Attribute lookup on a class walks its MRO. *)
Fixpoint mro_find {A} (ct : classtable) (f : class → option A) (mro : list string) : option A :=
  match mro with
  | [] => None
  | k :: mro' =>
      match ct !! k ≫= f with
      | Some a => Some a
      | None => mro_find ct f mro'
      end
  end.

Definition class_mro (ct : classtable) (klas : string) : list string :=
  match ct !! klas with
  | Some c => c_mro c
  | None => []
  end.

(** [getattr(klas, key)], when [klas] has the attribute. *)
Definition class_getattr (ct : classtable) (klas key : string) : option member :=
  mro_find ct (λ c, dict_get (c_dict c) key) (class_mro ct klas).

Definition class_loghook (ct : classtable) (klas : string) : option policy :=
  mro_find ct c_loghook (class_mro ct klas).

Definition class_subdecorate (ct : classtable) (klas : string) : option policy :=
  mro_find ct c_subdecorate (class_mro ct klas).

(** [hasattr(fn, "__loghook__")] and [fn.__subdecorate__] on a member. *)
Definition member_loghook (m : member) : bool :=
  match m with
  | MWrapped w => w_loghook w
  | _ => false
  end.

Definition member_subdecorate (m : member) : option interceptor :=
  match m with
  | MWrapped w => w_subdecorate w
  | _ => None
  end.

(** [keyIsTrue(x)]: one actual for the two parameters [dic] and [key]. *)
Definition keyIsTrue_one_actual (x : pyval) : completion bool :=
  Raise (builtin_exn "TypeError"
           "keyIsTrue() missing 1 required positional argument: 'key'").

(** The frames of [_init] while it calls [original_init] (line 211) and
    of [wrapped_f] while it calls [fn] (line 76). *)
Definition init_frame (P : platform) : frame :=
  {| co_filename := log_py P; f_lineno := 211 |}.

Definition wrapped_f_frame (P : platform) : frame :=
  {| co_filename := log_py P; f_lineno := 76 |}.

(** [object.__init__] *)
Definition object_init : pyfunc :=
  {| fn_name := Some "__init__";
     fn_module := None;
     fn_class_name := "wrapper_descriptor";
     fn_body := λ args kw,
       match args, kw with
       | [_], [] => ret VNone
       | _, _ => raise (builtin_exn "TypeError"
                   "object.__init__() takes exactly one argument (the instance to initialize)")
       end |}.

Definition object_class : class :=
  {| c_id := builtins "object";
     c_mro := ["object"];
     c_dict := [("__init__", MFunc object_init)];
     c_loghook := None;
     c_subdecorate := None |}.

Section Binder.
Context (P : platform).

(** Lines 201-208 of [_init]: binding the logger and setting its level. *)
Definition init_logger (self_args : policy) (instance : pyval) : py unit :=
  has <- hasattr P instance "logger" ;;
  bound <- (if has : bool then lg <- getattr P instance "logger" ;; ret (truthy lg)
            else ret false) ;;
  replace <- (if negb bound then ret true
              else v <- lift (subscript self_args "inherit_logger") ;;
                   b <- lift (keyIsTrue_one_actual v) ;;
                   ret (negb b)) ;;
  (if replace : bool then
     setattr instance "logger"
       (getLogger (cls_module (class_of instance) +:+ "."
                     +:+ cls_name (class_of instance)))
   else ret tt) ;;;
  (if negb (policy_falsy self_args)
      && bool_decide (is_Some (self_args ≫= (.!! "level"))) then
     lg <- getattr P instance "logger" ;;
     level <- lift (subscript self_args "level") ;;
     setLevel P lg level
   else ret tt).

(** Calling a member with [args] and [kw] from the frame [caller]. The
    case [MInit] is the body of [_init]; the test [if self.original_init:]
    asks whether there is an original constructor, a function being
    truthy. *)
Fixpoint run_member (m : member) (caller : option frame)
    (args : list pyval) (kw : kwargs) {struct m} : py pyval :=
  match m with
  | MData v => raise (builtin_exn "TypeError" "object is not callable")
  | MFunc f => fn_body f args kw
  | MWrapped w => call_wrapped P w caller args kw
  | MInit self_args original_init =>
      match args with
      | [] => raise (builtin_exn "TypeError"
                "_init() missing 1 required positional argument: 'instance'")
      | instance :: _ =>
          init_logger self_args instance ;;;
          match original_init with
          | Some m' => run_member m' (Some (init_frame P)) args kw ;;; ret VNone
          | None => ret VNone
          end
      end
  end.

(** A member as the callable handed to [hook]; that callable is only
    ever called by [wrapped_f]. A plain value has no [__name__]; it finds
    [__module__] on its class, unless that class is one of the built-in
    classes of numbers, strings and [None], whose instances show none. *)
Definition as_pyfunc (m : member) : pyfunc :=
  match m with
  | MFunc f => f
  | MData v =>
      {| fn_name := None;
         fn_module :=
           match v with
           | VNone | VBool _ | VInt _ | VStr _ => None
           | _ => Some (cls_module (class_of v))
           end;
         fn_class_name := cls_name (class_of v);
         fn_body := run_member m (Some (wrapped_f_frame P)) |}
  | MWrapped _ =>
      {| fn_name := Some "wrapped_f"; fn_module := Some (log_module P);
         fn_class_name := "function";
         fn_body := run_member m (Some (wrapped_f_frame P)) |}
  | MInit _ _ =>
      {| fn_name := Some "_init"; fn_module := Some (log_module P);
         fn_class_name := "function";
         fn_body := run_member m (Some (wrapped_f_frame P)) |}
  end.

(** [setattr(klas, key, m)] *)
Definition class_setattr (ct : classtable) (klas key : string) (m : member) : classtable :=
  match ct !! klas with
  | Some c =>
      <[klas := {| c_id := c_id c; c_mro := c_mro c;
                   c_dict := dict_set (c_dict c) key m;
                   c_loghook := c_loghook c;
                   c_subdecorate := c_subdecorate c |}]> ct
  | None => ct
  end.

(** One turn of the loop of lines 194-198, for one entry of
    [parent.__dict__]; [getattr(parent, key)] is the entry's own value,
    since a class heads its own MRO. *)
Definition subdecorate_step (klas : string) (ct : classtable)
    (entry : string * member) : classtable :=
  match member_subdecorate entry.2 with
  | Some deco =>
      match class_getattr ct klas entry.1 with
      | Some own =>
          if negb (member_loghook own) then
            class_setattr ct klas entry.1 (MWrapped (hook deco (as_pyfunc own)))
          else ct
      | None => ct
      end
  | None => ct
  end.

(** [LogClass(args)(klas)]: the class table after the decoration. *)
Definition LogClass_call (args : policy) (klas : string) (ct : classtable)
    : completion classtable :=
  match ct !! klas with
  | None => Raise (builtin_exn "NameError" klas)
  | Some c =>
      let original_init := class_getattr ct klas "__init__" in
      let subdec := if keyIsTrue args "subdecorate" then Some args
                    else c_subdecorate c in
      let ct1 : classtable :=
        <[klas := {| c_id := c_id c; c_mro := c_mro c; c_dict := c_dict c;
                     c_loghook := c_loghook c; c_subdecorate := subdec |}]> ct in
      match c_mro c !! 1%nat with
      | None => Raise (builtin_exn "IndexError" "tuple index out of range")
      | Some parent =>
          let self_args :=
            match class_loghook ct1 parent with
            | Some parent_args => if policy_falsy args then parent_args else args
            | None => args
            end in
          let ct2 :=
            match class_subdecorate ct1 parent with
            | Some _ =>
                foldl (subdecorate_step klas) ct1
                      (default [] (c_dict <$> ct1 !! parent))
            | None => ct1
            end in
          let ct3 := class_setattr ct2 klas "__init__" (MInit self_args original_init) in
          Normal (match ct3 !! klas with
                  | Some c3 =>
                      <[klas := {| c_id := c_id c3; c_mro := c_mro c3;
                                   c_dict := c_dict c3;
                                   c_loghook := Some self_args;
                                   c_subdecorate := c_subdecorate c3 |}]> ct3
                  | None => ct3
                  end)
      end
  end.

(** A member as the value an instance shows for it: the plain value
    itself, a bound method for a function. *)
Definition member_value (m : member) : pyval :=
  match m with
  | MData v => v
  | _ => VOpaque (builtins "method")
  end.

(** What the instances of [klas] find on their class: the two attributes
    [LogClass] sets, and the entries of the class dictionaries along the
    MRO. *)
Definition class_view (ct : classtable) (klas : string) (name : string)
    : option pyval :=
  let decorator := VOpaque {| cls_module := log_module P; cls_name := "LogClass" |} in
  if bool_decide (name = "__loghook__") then
    (λ _, decorator) <$> class_loghook ct klas
  else if bool_decide (name = "__subdecorate__") then
    (λ _, decorator) <$> class_subdecorate ct klas
  else member_value <$> class_getattr ct klas name.

(** [klas(args, kw)]: a new instance, then [__init__]. *)
Definition construct (ct : classtable) (klas : string) (caller : option frame)
    (args : list pyval) (kw : kwargs) : py pyval :=
  match ct !! klas with
  | None => raise (builtin_exn "NameError" klas)
  | Some c =>
      λ st,
        let r := fresh (dom (st_instances st)) in
        let instance := VObj (c_id c) r in
        let st0 :=
          {| st_instances :=
               <[r := {| inst_attrs := ∅; inst_str := None;
                         inst_class := class_view ct klas |}]> (st_instances st);
             st_levels := st_levels st;
             st_records := st_records st |} in
        match class_getattr ct klas "__init__" with
        | Some init =>
            (r <- run_member init caller (instance :: args) kw ;;
             match r with
             | VNone => ret instance
             | _ => raise (builtin_exn "TypeError" "__init__() should return None")
             end) st0
        | None => (Normal instance, st0)
        end
  end.

(** [obj.name(args, kw)]: an entry of the instance's own dictionary, a
    plain value, is not callable; otherwise the member found on the class
    of [obj] is called with [obj] as first argument. *)
Definition invoke (ct : classtable) (obj : pyval) (name : string)
    (caller : option frame) (args : list pyval) (kw : kwargs) : py pyval :=
  λ st,
    match instance_attr obj name st with
    | Some _ => (Raise (builtin_exn "TypeError" "object is not callable"), st)
    | None =>
        match class_getattr ct (cls_name (class_of obj)) name with
        | Some m => run_member m caller (obj :: args) kw st
        | None => (Raise (builtin_exn "AttributeError" name), st)
        end
    end.

End Binder.

(** ** Concrete scenarios *)

Definition P0 : platform :=
  {| relpath := Normal;
     opaque_str := λ _, "<object>";
     builtin_attr := λ _ _, None;
     log_py := "PyLogDecorate/log.py";
     log_module := "PyLogDecorate.log" |}.

Definition caller0 : frame := Frame "app.py" 12.

Definition ValueError_bad : exn :=
  {| exc_id := 1; exc_type := "ValueError"; exc_msg := "bad";
     exc_is_Exception := true; exc_truthy := true |}.

(** An exception whose class defines [__len__], here with no element. *)
Definition EmptyErrors : exn :=
  {| exc_id := 2; exc_type := "ErrorList"; exc_msg := "";
     exc_is_Exception := true; exc_truthy := false |}.

(** [def validate(x)]: always raises the empty [ErrorList]. *)
Definition validate : pyfunc :=
  {| fn_name := Some "validate";
     fn_module := Some "app";
     fn_class_name := "function";
     fn_body := λ _ _, raise EmptyErrors |}.

(** [def compute(x, y)]: raises [ValueError("bad")] when [y == 0], else
    returns [x + y]. *)
Definition compute : pyfunc :=
  {| fn_name := Some "compute";
     fn_module := Some "app";
     fn_class_name := "function";
     fn_body := λ args kw,
       match args, kw with
       | [VInt x; VInt y], [] =>
           if bool_decide (y = 0) then raise ValueError_bad
           else ret (VInt (x + y))
       | _, _ => raise (builtin_exn "TypeError" "compute() takes 2 positional arguments")
       end |}.

(** An instance of [class Compute] of module [app], whose [__call__] does
    what [compute] does: a callable object, which has no [__name__]. *)
Definition compute_object : pyfunc :=
  {| fn_name := None;
     fn_module := Some "app";
     fn_class_name := "Compute";
     fn_body := fn_body compute |}.

(** A function that accepts any arguments, keywords included. *)
Definition accepts_keywords : pyfunc :=
  {| fn_name := Some "accepts_keywords";
     fn_module := Some "app";
     fn_class_name := "function";
     fn_body := λ _ _, ret (VInt 1) |}.

Definition long_text : string := "abcdefghijklmnopqrstuvwxyz".

(** An instance of [app.Worker] whose [logger] is bound, and one without. *)
Definition worker : pyval := VObj (ClsId "app" "Worker") 0.
Definition stranger : pyval := VObj (ClsId "app" "Worker") 1.

Definition store0 : store :=
  {| st_instances :=
       {[ 0%nat := bare {["logger" := VLogger "app.Worker"]} None ]};
     st_levels := ∅;
     st_records := [] |}.

(** A formatting hook that fails when it is handed keyword arguments. *)
Definition strict_hook : hook_fn := λ _ _ _ _ kw _,
  match kw with
  | [] => ret tt
  | _ :: _ => raise (builtin_exn "RuntimeError" "unexpected keywords")
  end.

(** A policy that declares a paired trace. *)
Definition traced : policy :=
  Some (<["traceattr" := VStr "state"]> {["tracename" := VStr "job"]}).

(** Two classes of module [app]: [Base], and [Derived(Base)], neither
    with a constructor of its own. *)
Definition Base_class : class :=
  {| c_id := ClsId "app" "Base"; c_mro := ["Base"; "object"];
     c_dict := []; c_loghook := None; c_subdecorate := None |}.

Definition Derived_class : class :=
  {| c_id := ClsId "app" "Derived"; c_mro := ["Derived"; "Base"; "object"];
     c_dict := []; c_loghook := None; c_subdecorate := None |}.

Definition hierarchy0 : classtable :=
  <["Derived" := Derived_class]>
    (<["Base" := Base_class]> {["object" := object_class]}).

(** The table when a decoration went through. *)
Definition decorated (c : completion classtable) : classtable :=
  match c with
  | Normal ct => ct
  | Raise _ => ∅
  end.

(** [LogClass(base_args)] on [Base], then [LogClass(derived_args)] on
    [Derived]. *)
Definition decorate_both (base_args derived_args : policy) : classtable :=
  decorated (LogClass_call P0 derived_args "Derived"
               (decorated (LogClass_call P0 base_args "Base" hierarchy0))).

(** [LogClass(base_args)] on [Base] alone. *)
Definition decorate_base (base_args : policy) : classtable :=
  decorated (LogClass_call P0 base_args "Base" hierarchy0).

Definition inherit_on : policy := Some {["inherit_logger" := VBool true]}.
Definition subdecorate_on : policy := Some {["subdecorate" := VBool true]}.

(** A class [T] whose method [m] is wrapped by [LogCall] with
    [subdecorate], and a subclass [S] with a constructor of its own that
    overrides [m] with a plain function. *)
Definition m_of_T : pyfunc :=
  {| fn_name := Some "m"; fn_module := Some "app"; fn_class_name := "function";
     fn_body := λ _ _, ret (VStr "T.m") |}.

Definition m_of_S : pyfunc :=
  {| fn_name := Some "m"; fn_module := Some "app"; fn_class_name := "function";
     fn_body := λ _ _, ret (VStr "S.m") |}.

Definition init_of_S : pyfunc :=
  {| fn_name := Some "__init__"; fn_module := Some "app"; fn_class_name := "function";
     fn_body := λ _ _, ret VNone |}.

Definition T_class : class :=
  {| c_id := ClsId "app" "T"; c_mro := ["T"; "object"];
     c_dict := [("m", MWrapped (hook (LogCall subdecorate_on) m_of_T))];
     c_loghook := None; c_subdecorate := None |}.

Definition S_class : class :=
  {| c_id := ClsId "app" "S"; c_mro := ["S"; "T"; "object"];
     c_dict := [("__init__", MFunc init_of_S); ("m", MFunc m_of_S)];
     c_loghook := None; c_subdecorate := None |}.

(** The classes once [LogClass(subdecorate_on)] has decorated [T]. *)
Definition T_decorated : classtable :=
  decorated (LogClass_call P0 subdecorate_on "T"
               (<["S" := S_class]>
                  (<["T" := T_class]> {["object" := object_class]}))).

(** A store with one instance of [S], its logger bound as the installed
    constructor binds it. *)
Definition an_S : pyval := VObj (ClsId "app" "S") 0.


(** ** Predicates used in the statements *)

(** What a record shows for [v] under the limit [max]: with [d] the
    display string of [v] and [t] that of its type, [t] when [d] is longer
    than [max], and [d] itself otherwise. *)
Definition shown (P : platform) (st : store) (max : Z) (v : pyval) (s : string) : Prop :=
  ∃ d t, toStr P v st = (Normal d, st)
         ∧ toStr P (type_of v) st = (Normal t, st)
         ∧ (max < Z.of_nat (String.length d) → s = t)
         ∧ (Z.of_nat (String.length d) ≤ max → s = d).

(** The record [LogCall.log_f] emits on the logger [name]. *)
Definition call_record (name file : string) (line : Z) (func : string)
    (args : list string) (result : string) : log_record :=
  LogRecord name
    (file +:+ " " +:+ pretty line +:+ ": " +:+ func
          +:+ "(" +:+ String.concat ", " args +:+ ") -> " +:+ result) [].

(** [m] never raises. *)
Definition quiet {A} (m : py A) : Prop :=
  ∀ st, ∃ a st', m st = (Normal a, st').

(** How the call of line 76 ended, as the rest of [wrapped_f] sees it:
    whether the second [try] statement is reached (it is not when the call
    raised something that is no [Exception]), and the local [result]. *)
Definition hook_reached (c : completion pyval) : bool :=
  match c with
  | Normal _ => true
  | Raise e => exc_is_Exception e
  end.

Definition local_result (c : completion pyval) : pyval :=
  match c with
  | Normal v => v
  | Raise _ => VStr "CRASHED"
  end.

(** The levels [logging] accepts: integers, booleans and the names it
    knows. *)
Definition accepted_level (level : pyval) : bool :=
  match level with
  | VInt _ | VBool _ => true
  | VStr s => bool_decide (is_Some (dict_get level_names s))
  | _ => false
  end.

(** The type of the exception line 203 raises for a policy. *)
Definition line_203_error (args : policy) : string :=
  match args with
  | Some d => if bool_decide (is_Some (d !! "inherit_logger"))
              then "TypeError" else "KeyError"
  | None => "TypeError"
  end.

(** The entry [key] of the own dictionary of [klas]. *)
Definition own_member (ct : classtable) (klas key : string) : option member :=
  ct !! klas ≫= λ c, dict_get (c_dict c) key.

(** [klas] is defined and heads its own MRO, as every class does. *)
Definition heads_own_mro (ct : classtable) (klas : string) : Prop :=
  ∃ c rest, ct !! klas = Some c ∧ c_mro c = klas :: rest.

(** ** Further scenarios *)

(** An instance of [app.Job] with a bound logger and an attribute
    [state], and a method that moves [state] to ["done"]. *)
Definition job : pyval := VObj (ClsId "app" "Job") 3.

Definition store_job : store :=
  {| st_instances :=
       {[ 3%nat := bare (<["state" := VStr "new"]>
                           {["logger" := VLogger "app.Job"]}) None ]};
     st_levels := ∅;
     st_records := [] |}.

Definition advance : pyfunc :=
  {| fn_name := Some "advance";
     fn_module := Some "app";
     fn_class_name := "function";
     fn_body := λ args _,
       match args with
       | obj :: _ => setattr obj "state" (VStr "done") ;;; ret (VInt 1)
       | [] => raise (builtin_exn "TypeError" "advance() missing 'self'")
       end |}.

(** An instance whose [logger] attribute is a string, not a logger. *)
Definition misconfigured : pyval := VObj (ClsId "app" "Job") 4.

Definition store_misconfigured : store :=
  {| st_instances :=
       {[ 4%nat := bare (<["state" := VStr "new"]>
                           {["logger" := VStr "console"]}) None ]};
     st_levels := ∅;
     st_records := [] |}.

Definition KeyboardInterrupt : exn :=
  {| exc_id := 3; exc_type := "KeyboardInterrupt"; exc_msg := "";
     exc_is_Exception := false; exc_truthy := true |}.

(** A function interrupted while it runs, and a hook interrupted while it
    formats. *)
Definition interrupted : pyfunc :=
  {| fn_name := Some "interrupted";
     fn_module := Some "app";
     fn_class_name := "function";
     fn_body := λ _ _, raise KeyboardInterrupt |}.

Definition interrupted_hook : hook_fn := λ _ _ _ _ _ _, raise KeyboardInterrupt.

(** The policy a decoration ends up with (lines 191-192): the parent's
    recorded policy when the decorator was given none and the parent was
    decorated, the decorator's own otherwise. *)
Definition effective_policy (ct : classtable) (args : policy) (parent : string)
    : policy :=
  match class_loghook ct parent with
  | Some parent_args => if policy_falsy args then parent_args else args
  | None => args
  end.

(** [c'] is [c] with, at most, another dictionary. *)
Definition same_class_but_dict (c c' : class) : Prop :=
  c_id c' = c_id c ∧ c_mro c' = c_mro c
  ∧ c_loghook c' = c_loghook c ∧ c_subdecorate c' = c_subdecorate c.

(** [ct'] differs from [ct] at most in the dictionary of [klas]. *)
Definition touches_only_dict_of (klas : string) (ct ct' : classtable) : Prop :=
  (∀ k, k ≠ klas → ct' !! k = ct !! k)
  ∧ ∀ c, ct !! klas = Some c →
         ∃ c', ct' !! klas = Some c' ∧ same_class_but_dict c c'.

(** [Base] decorated with a level and [subdecorate]; [Derived] is then
    decorated without a policy. *)
Definition leveled : policy :=
  Some (<["level" := VInt 10]> {["subdecorate" := VBool true]}).

(** The class table after line 187 of [LogClass.__call__], where the class
    is marked, and after the loop of lines 193-198. *)
Definition marked_table (args : policy) (klas : string) (ct : classtable)
    : classtable :=
  match ct !! klas with
  | Some c =>
      <[klas := {| c_id := c_id c; c_mro := c_mro c; c_dict := c_dict c;
                   c_loghook := c_loghook c;
                   c_subdecorate := if keyIsTrue args "subdecorate" then Some args
                                    else c_subdecorate c |}]> ct
  | None => ct
  end.

Definition scanned_table (P : platform) (args : policy) (klas parent : string)
    (ct : classtable) : classtable :=
  let ct1 := marked_table args klas ct in
  match class_subdecorate ct1 parent with
  | Some _ =>
      foldl (subdecorate_step P klas) ct1 (default [] (c_dict <$> ct1 !! parent))
  | None => ct1
  end.

(** A method of [S] that is already wrapped, by [LogCall] without
    [subdecorate]. *)
Definition S_class_wrapped : class :=
  {| c_id := ClsId "app" "S"; c_mro := ["S"; "T"; "object"];
     c_dict := [("__init__", MFunc init_of_S);
                ("m", MWrapped (hook (LogCall None) m_of_S))];
     c_loghook := None; c_subdecorate := None |}.

(** A parent whose method [m] is wrapped without [subdecorate], although
    the class itself is decorated with it. *)
Definition T_class_unmarked : class :=
  {| c_id := ClsId "app" "T"; c_mro := ["T"; "object"];
     c_dict := [("m", MWrapped (hook (LogCall None) m_of_T))];
     c_loghook := None; c_subdecorate := None |}.


Definition with_T_decorated (t s : class) : classtable :=
  decorated (LogClass_call P0 subdecorate_on "T"
               (<["S" := s]> (<["T" := t]> {["object" := object_class]}))).

(** Three classes in a row, each with its own [m]; the one of [Top] is
    wrapped by [LogCall] with [subdecorate]. *)
Definition m_of_Low : pyfunc :=
  {| fn_name := Some "m"; fn_module := Some "app"; fn_class_name := "function";
     fn_body := λ _ _, ret (VStr "Low.m") |}.

Definition Top_class : class :=
  {| c_id := ClsId "app" "Top"; c_mro := ["Top"; "object"];
     c_dict := [("m", MWrapped (hook (LogCall subdecorate_on) m_of_T))];
     c_loghook := None; c_subdecorate := None |}.

Definition Mid_class : class :=
  {| c_id := ClsId "app" "Mid"; c_mro := ["Mid"; "Top"; "object"];
     c_dict := [("m", MFunc m_of_S)];
     c_loghook := None; c_subdecorate := None |}.

Definition Low_class : class :=
  {| c_id := ClsId "app" "Low"; c_mro := ["Low"; "Mid"; "Top"; "object"];
     c_dict := [("m", MFunc m_of_Low)];
     c_loghook := None; c_subdecorate := None |}.

(** [Top] decorated with [subdecorate], then [Mid] without a policy. *)
Definition chain_Mid_decorated : classtable :=
  decorated
    (LogClass_call P0 None "Mid"
       (decorated
          (LogClass_call P0 subdecorate_on "Top"
             (<["Low" := Low_class]>
                (<["Mid" := Mid_class]>
                   (<["Top" := Top_class]> {["object" := object_class]})))))).

(** A class of module [app] with a class attribute [logger]. *)
Definition Base_with_logger : class :=
  {| c_id := ClsId "app" "Base"; c_mro := ["Base"; "object"];
     c_dict := [("logger", MData (VLogger "shared"))];
     c_loghook := None; c_subdecorate := None |}.
(** ** Laws of the computations *)

Lemma bind_normal {A B} (m : py A) (k : A → py B) st a st' :
  m st = (Normal a, st') → bind m k st = k a st'.
Proof. intros H. unfold bind. by rewrite H. Qed.

Lemma bind_raise {A B} (m : py A) (k : A → py B) st e st' :
  m st = (Raise e, st') → bind m k st = (Raise e, st').
Proof. intros H. unfold bind. by rewrite H. Qed.

Lemma bind_assoc {A B C} (m : py A) (k : A → py B) (k' : B → py C) st :
  bind (bind m k) k' st = bind m (λ a, bind (k a) k') st.
Proof. unfold bind. by destruct (m st) as [[a | e] st']. Qed.

(** ** The display helpers never raise *)

Lemma py_str_type P c st :
  py_str P (VType c) st = (Normal ("<class '" +:+ qualname c +:+ "'>"), st).
Proof. reflexivity. Qed.

Lemma py_str_store P v st : (py_str P v st).2 = st.
Proof.
  destruct v as [| [] | | | | | |]; try reflexivity.
  simpl. destruct (inst_str _); reflexivity.
Qed.

Lemma type_of_is_type v : ∃ c, type_of v = VType c.
Proof. destruct v; simpl; eauto. Qed.

Lemma toStr_total P v st : ∃ s, toStr P v st = (Normal s, st).
Proof.
  unfold toStr, try_except_all.
  pose proof (py_str_store P v st) as Hst.
  destruct (py_str P v st) as [[s | e] st'] eqn:E; simpl in Hst; subst st'.
  - eauto.
  - destruct (type_of_is_type v) as [c ->]. rewrite py_str_type. eauto.
Qed.

Lemma toShortStr_total P v max st : ∃ s, toShortStr P v max st = (Normal s, st).
Proof.
  unfold toShortStr, bind.
  destruct (toStr_total P v st) as [s ->].
  destruct (_ >? _).
  - apply toStr_total.
  - eauto.
Qed.

(** [mapM] of a function that never raises and leaves the store alone. *)
Lemma mapM_total {A B} (f : A → py B) st :
  (∀ a, ∃ b, f a st = (Normal b, st)) →
  ∀ l, ∃ bs, mapM f l st = (Normal bs, st)
             ∧ Forall2 (λ a b, f a st = (Normal b, st)) l bs.
Proof.
  intros Hf l. induction l as [| a l IH]; simpl.
  - exists []. split; [reflexivity | constructor].
  - destruct (Hf a) as [b Hb]. destruct IH as [bs [Hbs Hall]].
    exists (b :: bs). unfold bind. rewrite Hb, Hbs.
    split; [reflexivity | by constructor].
Qed.

Lemma toShortStr_shown P v max st s :
  toShortStr P v max st = (Normal s, st) → shown P st max v s.
Proof.
  unfold toShortStr, bind. intros H.
  destruct (toStr_total P v st) as [d Hd]. rewrite Hd in H.
  destruct (toStr_total P (type_of v) st) as [t Ht].
  exists d, t. repeat split; try assumption.
  - intros Hlt. destruct (Z.gtb_spec (Z.of_nat (String.length d)) max); [| lia].
    rewrite Ht in H. by inversion H.
  - intros Hle. destruct (Z.gtb_spec (Z.of_nat (String.length d)) max); [lia |].
    by inversion H.
Qed.

Lemma LogCall_log_f_inv P logger fr fn args result st st' :
  LogCall_log_f P logger fr fn args [] result st = (Normal tt, st') →
  ∃ name file func sargs sres,
    logger = VLogger name
    ∧ relpath P (co_filename fr) = Normal file
    ∧ fn_name fn = Some func
    ∧ Forall2 (λ a s, toShortStr P a 20 st = (Normal s, st)) args sargs
    ∧ toShortStr P result 20 st = (Normal sres, st)
    ∧ st_records st' =
        st_records st ++ [call_record name file (f_lineno fr) func sargs sres]
    ∧ st_instances st' = st_instances st.
Proof.
  unfold LogCall_log_f, bind. intros H.
  destruct (mapM_total (λ a, toShortStr P a 20) st
              (λ a, toShortStr_total P a 20 st) args) as [sargs [Hm Hall]].
  rewrite Hm in H. unfold ret at 1 in H.
  destruct logger; simpl in H; try discriminate.
  unfold lift in H.
  destruct (relpath P (co_filename fr)) as [file |] eqn:Hrel; [| discriminate].
  unfold get_name in H. destruct (fn_name fn) as [func |] eqn:Hname; [| discriminate].
  simpl in H.
  destruct (toShortStr_total P result 20 st) as [sres Hres]. rewrite Hres in H.
  unfold emit_debug in H. inversion H; subst st'; clear H.
  exists name, file, func, sargs, sres. by repeat split.
Qed.

(** ** The default formatting strategy *)

(** C6. In the record [LogCall.log_f] emits, every argument and the result
    are shown under the limit of 20 characters: a value whose display
    string is longer than the limit is shown as the display string of its
    type, a value whose display string has at most that length as the
    display string itself. [toShortStr] does the same for any limit. *)
Theorem record_shows_type_for_long_values P name fr fn args result st st' :
  LogCall_log_f P (VLogger name) fr fn args [] result st = (Normal tt, st') →
  ∃ file func sargs sres,
    st_records st' =
      st_records st ++ [call_record name file (f_lineno fr) func sargs sres]
    ∧ Forall2 (shown P st 20) args sargs
    ∧ shown P st 20 result sres
    ∧ ∀ v max, ∃ s, toShortStr P v max st = (Normal s, st) ∧ shown P st max v s.
Proof.
  intros H.
  apply LogCall_log_f_inv in H
    as (name' & file & func & sargs & sres & Hn & _ & _ & Hargs & Hres & Hrec & _).
  inversion Hn; subst name'.
  exists file, func, sargs, sres. repeat split.
  - exact Hrec.
  - eapply Forall2_impl; [exact Hargs |]. intros a s. apply toShortStr_shown.
  - by apply toShortStr_shown.
  - intros v max. destruct (toShortStr_total P v max st) as [s Hs].
    exists s. split; [exact Hs | by apply toShortStr_shown].
Qed.

Lemma record_shows_type_for_long_values_witness :
  ∃ st',
    LogCall_log_f P0 (VLogger "app") caller0 compute
      [VInt 3; VStr long_text] [] (VInt 7) empty_store = (Normal tt, st')
    ∧ ∃ file func sargs sres,
        st_records st' =
          st_records empty_store
            ++ [call_record "app" file (f_lineno caller0) func sargs sres]
        ∧ Forall2 (shown P0 empty_store 20) [VInt 3; VStr long_text] sargs
        ∧ shown P0 empty_store 20 (VInt 7) sres
        ∧ ∀ v max, ∃ s, toShortStr P0 v max empty_store = (Normal s, empty_store)
                        ∧ shown P0 empty_store max v s.
Proof.
  eexists. split.
  - reflexivity.
  - apply (record_shows_type_for_long_values P0 "app" caller0 compute
             [VInt 3; VStr long_text] (VInt 7) empty_store).
    reflexivity.
Defined.

Example long_argument_record :
  st_records
    (LogCall_log_f P0 (VLogger "app") caller0 compute
       [VInt 3; VStr long_text] [] (VInt 7) empty_store).2
  = [LogRecord "app" "app.py 12: compute(3, <class 'str'>) -> 7" []].
Proof. reflexivity. Qed.

Example toShortStr_at_limit :
  toShortStr P0 (VStr "abcdefghijklmnopqrst") 20 empty_store
  = (Normal "abcdefghijklmnopqrst", empty_store).
Proof. reflexivity. Qed.

(** ** Resolving the logger *)

Lemma isclass_type_of v : isclass (type_of v) = true.
Proof. by destruct v. Qed.

Lemma resolve_logger_cons P fn a0 rest st :
  resolve_logger P fn (a0 :: rest) st =
    match lookup_attr P a0 "logger" st with
    | Some lg => (Normal (lg, true), st)
    | None =>
        match fn_module fn with
        | Some m => (Normal (getLogger (m +:+ "." +:+ fn_class_name fn), true), st)
        | None => (Raise (builtin_exn "AttributeError" "__module__"), st)
        end
    end.
Proof.
  unfold resolve_logger. rewrite isclass_type_of.
  unfold bind, hasattr, getattr, get_module.
  destruct (lookup_attr P a0 "logger" st) as [lg |] eqn:E.
  - rewrite bool_decide_eq_true_2 by eauto. by rewrite E.
  - rewrite bool_decide_eq_false_2 by (intros [? ?]; discriminate).
    by destruct (fn_module fn).
Qed.

Lemma resolve_logger_nil P fn st :
  resolve_logger P fn [] st =
    match fn_module fn with
    | Some m => (Normal (getLogger m, false), st)
    | None => (Raise (builtin_exn "AttributeError" "__module__"), st)
    end.
Proof. unfold resolve_logger, bind, get_module. by destruct (fn_module fn). Qed.

Lemma bind_resolve_logger_cons {B} P fn a0 rest (k : pyval * bool → py B) st :
  bind (resolve_logger P fn (a0 :: rest)) k st =
    match lookup_attr P a0 "logger" st with
    | Some lg => k (lg, true) st
    | None =>
        match fn_module fn with
        | Some m => k (getLogger (m +:+ "." +:+ fn_class_name fn), true) st
        | None => (Raise (builtin_exn "AttributeError" "__module__"), st)
        end
    end.
Proof.
  unfold bind. rewrite resolve_logger_cons.
  destruct (lookup_attr P a0 "logger" st); [reflexivity |].
  by destruct (fn_module fn).
Qed.

(** The logger of a method call, read off [resolve_logger]. *)
Lemma resolve_logger_method P fn a0 rest st lg :
  match lookup_attr P a0 "logger" st with
  | Some l => lg = l
  | None => ∃ m, fn_module fn = Some m
                 ∧ lg = getLogger (m +:+ "." +:+ fn_class_name fn)
  end →
  resolve_logger P fn (a0 :: rest) st = (Normal (lg, true), st).
Proof.
  intros H. rewrite resolve_logger_cons.
  destruct (lookup_attr P a0 "logger" st) as [l |]; [by subst |].
  by destruct H as (m & -> & ->).
Qed.

Lemma resolve_logger_store P fn args st lg cf st' :
  resolve_logger P fn args st = (Normal (lg, cf), st') →
  st' = st ∧ (cf = true ↔ args ≠ []).
Proof.
  intros H. destruct args as [| a0 rest].
  - rewrite resolve_logger_nil in H.
    destruct (fn_module fn); [| discriminate]. by inversion H.
  - rewrite resolve_logger_cons in H.
    assert (cf = true ∧ st' = st) as [-> ->]; [| done].
    destruct (lookup_attr P a0 "logger" st); [by inversion H |].
    destruct (fn_module fn); [by inversion H | discriminate].
Qed.

(** ** The wrapper's signature *)

Lemma guarded_call_ignores_kind P k k' pol fn lg cf args :
  guarded_call P (Interceptor k pol) fn lg cf args
  = guarded_call P (Interceptor k' pol) fn lg cf args.
Proof. reflexivity. Qed.

(** The hook is only ever applied to an empty keyword dictionary. *)
Lemma wrapped_f_hook_empty_kw P h h' pol fn caller args st :
  (∀ lg fr f a r, h lg fr f a [] r = h' lg fr f a [] r) →
  wrapped_f P (Interceptor (KCustom h) pol) fn caller args st
  = wrapped_f P (Interceptor (KCustom h') pol) fn caller args st.
Proof.
  intros Hagree. unfold wrapped_f, bind.
  destruct (resolve_logger P fn args st) as [[[lg cf] | e] st0]; [| reflexivity].
  unfold logged_call, bind.
  rewrite (guarded_call_ignores_kind P (KCustom h) (KCustom h')).
  destruct (guarded_call _ _ _ _ _ _ st0) as [[[result err] | e] st1]; [| reflexivity].
  unfold guarded_log, log_f; simpl.
  destruct (sys_getframe caller st1) as [[fr | e] st2]; [| reflexivity].
  by rewrite Hagree.
Qed.

(** C10. The wrapper takes positional arguments only: called with any
    keyword argument it raises a [TypeError], leaves the store as it was,
    and does so whatever the wrapped callable is, so that callable is not
    run; and the formatting hook is only ever handed an empty keyword
    dictionary, so two hooks that agree on the empty dictionary give the
    same wrapper. *)
Theorem wrapper_takes_positional_only P caller args kw st h h' pol fn :
  kw ≠ [] →
  (∀ lg fr f a r, h lg fr f a [] r = h' lg fr f a [] r) →
  (∃ e, exc_type e = "TypeError"
        ∧ ∀ w', call_wrapped P w' caller args kw st = (Raise e, st))
  ∧ call_wrapped P (hook (Interceptor (KCustom h) pol) fn) caller args [] st
    = call_wrapped P (hook (Interceptor (KCustom h') pol) fn) caller args [] st.
Proof.
  intros Hkw Hagree. split.
  - destruct kw as [| [k v] kw']; [done |].
    eexists. split; [| intros w'; reflexivity]. reflexivity.
  - simpl. by apply wrapped_f_hook_empty_kw.
Qed.

Lemma wrapper_takes_positional_only_witness :
  (∃ e, exc_type e = "TypeError"
        ∧ ∀ w', call_wrapped P0 w' (Some caller0) [VInt 3] [("y", VInt 4)] empty_store
                = (Raise e, empty_store))
  ∧ call_wrapped P0 (hook (Interceptor (KCustom strict_hook) None) accepts_keywords)
      (Some caller0) [VInt 3] [] empty_store
    = call_wrapped P0 (hook (Interceptor (KCustom LogCallBase_log_f) None) accepts_keywords)
        (Some caller0) [VInt 3] [] empty_store.
Proof.
  apply (wrapper_takes_positional_only P0 (Some caller0) [VInt 3]
           [("y", VInt 4)] empty_store strict_hook LogCallBase_log_f None
           accepts_keywords).
  - discriminate.
  - reflexivity.
Defined.

Example keyword_call_is_rejected :
  call_wrapped P0 (hook (LogCall None) accepts_keywords) (Some caller0)
    [VInt 3] [("y", VInt 4)] empty_store
  = (Raise (builtin_exn "TypeError"
              "wrapped_f() got an unexpected keyword argument 'y'"),
     empty_store).
Proof. reflexivity. Qed.

(** ** The guarded region around the hook *)

(** Frame capture fails: [del frame] raises in the handler, so [err] is
    never assigned there. *)
Lemma guarded_log_without_frame P self fn lg args result err st :
  ∃ e', guarded_log P self fn None lg args result err st = ((err, Some e'), st).
Proof. unfold guarded_log; simpl. eauto. Qed.

Lemma guarded_log_hook_returns P self fn fr lg args result err st st' :
  log_f P self lg fr fn args [] result st = (Normal tt, st') →
  guarded_log P self fn (Some fr) lg args result err st = ((err, None), st').
Proof. intros H. unfold guarded_log; simpl. by rewrite H. Qed.

(** The hook raises: [err = e] is executed whatever [err] held. *)
Lemma guarded_log_hook_raises P self fn fr lg args result err st e st' :
  log_f P self lg fr fn args [] result st = (Raise e, st') →
  exc_is_Exception e = true →
  guarded_log P self fn (Some fr) lg args result err st = ((Some e, Some e), st').
Proof. intros H He. unfold guarded_log; simpl. by rewrite H, He. Qed.

(** When the hook cannot raise, the region leaves [err] as it found it. *)
Lemma guarded_log_keeps_err P self fn caller lg args result err st :
  (∀ fr, caller = Some fr → quiet (log_f P self lg fr fn args [] result)) →
  ∃ fl st', guarded_log P self fn caller lg args result err st = ((err, fl), st').
Proof.
  intros Hq. destruct caller as [fr |].
  - destruct (Hq fr eq_refl st) as ([] & st' & H).
    exists None, st'. by apply guarded_log_hook_returns.
  - destruct (guarded_log_without_frame P self fn lg args result err st) as [e' H].
    eauto.
Qed.

Lemma trace_quiet_without_pair P tag key self lg inst :
  haskey (i_args self) "tracename" && haskey (i_args self) "traceattr" = false →
  quiet (trace_record P tag key self lg inst).
Proof. intros H st. unfold trace_record. rewrite H. by eexists _, _. Qed.

Lemma LogCallBase_hook_quiet P self lg fr fn args kw result :
  i_kind self = KBase → quiet (log_f P self lg fr fn args kw result).
Proof. intros H st. unfold log_f. rewrite H. by eexists _, _. Qed.

Lemma LogCall_hook_quiet P self name fr fn args result func file :
  i_kind self = KLogCall →
  fn_name fn = Some func →
  relpath P (co_filename fr) = Normal file →
  quiet (log_f P self (VLogger name) fr fn args [] result).
Proof.
  intros Hk Hn Hr st. unfold log_f. rewrite Hk.
  unfold LogCall_log_f, bind.
  destruct (mapM_total (λ a, toShortStr P a 20) st
              (λ a, toShortStr_total P a 20 st) args) as [sargs [-> _]].
  simpl. unfold lift, get_name. rewrite Hr, Hn. simpl.
  destruct (toShortStr_total P result 20 st) as [sres ->].
  by eexists _, _.
Qed.

(** ** One run of the wrapper *)

(** Lines 74-98, followed along one run: the entering trace returns, the
    callable ends with [c], the leaving trace returns when the callable
    returned, the hook returns when it is reached and the frame is there,
    and an [Exception] of the callable is truthy. Then the wrapper ends
    with [c], in the store the hook left. *)
Lemma logged_call_run P self fn caller lg (cf : bool) args st st1 c st2 st3 st4 :
  (if cf then trace_in P self lg (default VNone (head args)) else ret tt) st
    = (Normal tt, st1) →
  fn_body fn args [] st1 = (c, st2) →
  match c with
  | Normal _ =>
      (if cf then trace_out P self lg (default VNone (head args)) else ret tt) st2
        = (Normal tt, st3)
  | Raise _ => st3 = st2
  end →
  match caller with
  | Some fr =>
      if hook_reached c
      then log_f P self lg fr fn args [] (local_result c) st3 = (Normal tt, st4)
      else st4 = st3
  | None => st4 = st3
  end →
  (∀ e, c = Raise e → exc_is_Exception e = true → exc_truthy e = true) →
  logged_call P self fn caller lg cf args st = (c, st4).
Proof.
  intros Hin Hfn Hout Hhook Htruthy.
  assert (Hcall : guarded_call P self fn lg cf args st
                  = match c with
                    | Normal v => (Normal (v, None), st3)
                    | Raise e => if exc_is_Exception e
                                 then (Normal (VStr "CRASHED", Some e), st3)
                                 else (Raise e, st3)
                    end).
  { unfold guarded_call, try_except_Exception.
    rewrite (bind_normal _ _ _ _ _ Hin). unfold bind at 1. rewrite Hfn.
    destruct c as [v | e].
    - by rewrite (bind_normal _ _ _ _ _ Hout).
    - subst st3. by destruct (exc_is_Exception e). }
  unfold logged_call.
  destruct c as [v | e].
  - rewrite (bind_normal _ _ _ _ _ Hcall). simpl fst. simpl snd.
    destruct caller as [fr |]; simpl in Hhook.
    + by rewrite (guarded_log_hook_returns _ _ _ _ _ _ _ _ _ _ Hhook).
    + subst st4. by destruct (guarded_log_without_frame P self fn lg args v None st3)
        as [e' ->].
  - destruct (exc_is_Exception e) eqn:He.
    + rewrite (bind_normal _ _ _ _ _ Hcall). simpl fst. simpl snd.
      pose proof (Htruthy e eq_refl He) as Ht.
      destruct caller as [fr |]; simpl in Hhook; rewrite ?He in Hhook.
      * rewrite (guarded_log_hook_returns _ _ _ _ _ _ _ _ _ _ Hhook). simpl.
        by rewrite Ht.
      * subst st4.
        destruct (guarded_log_without_frame P self fn lg args (VStr "CRASHED")
                    (Some e) st3) as [e' ->].
        simpl. by rewrite Ht.
    + rewrite (bind_raise _ _ _ _ _ Hcall).
      destruct caller as [fr |]; simpl in Hhook; rewrite ?He in Hhook; by subst.
Qed.

Lemma wrapped_f_run P self fn caller args st lg cf st1 c st2 st3 st4 :
  resolve_logger P fn args st = (Normal (lg, cf), st) →
  (if cf then trace_in P self lg (default VNone (head args)) else ret tt) st
    = (Normal tt, st1) →
  fn_body fn args [] st1 = (c, st2) →
  match c with
  | Normal _ =>
      (if cf then trace_out P self lg (default VNone (head args)) else ret tt) st2
        = (Normal tt, st3)
  | Raise _ => st3 = st2
  end →
  match caller with
  | Some fr =>
      if hook_reached c
      then log_f P self lg fr fn args [] (local_result c) st3 = (Normal tt, st4)
      else st4 = st3
  | None => st4 = st3
  end →
  (∀ e, c = Raise e → exc_is_Exception e = true → exc_truthy e = true) →
  wrapped_f P self fn caller args st = (c, st4).
Proof.
  intros Hres Hin Hfn Hout Hhook Htruthy.
  unfold wrapped_f. rewrite (bind_normal _ _ _ _ _ Hres). simpl fst. simpl snd.
  by apply (logged_call_run P self fn caller lg cf args st st1 c st2 st3 st4).
Qed.

(** What the hook of [LogCall] leaves when it returns: the call record,
    on the logger it was handed. *)
Lemma LogCall_hook_record P self lg fr fn args result st st' :
  i_kind self = KLogCall →
  log_f P self lg fr fn args [] result st = (Normal tt, st') →
  ∃ name file func sargs sres,
    lg = VLogger name
    ∧ relpath P (co_filename fr) = Normal file
    ∧ fn_name fn = Some func
    ∧ st_records st' =
        st_records st ++ [call_record name file (f_lineno fr) func sargs sres].
Proof.
  intros Hk H. unfold log_f in H. rewrite Hk in H.
  apply LogCall_log_f_inv in H
    as (name & file & func & sargs & sres & Hn & Hf & Hfn & _ & _ & Hrec & _).
  by exists name, file, func, sargs, sres.
Qed.

(** ** Resolved logger and classification *)

(** C8. A call with a first argument [a0] is run on the logger [lg] that
    is [a0.logger] when [a0] has the attribute, and otherwise the logger
    named [fn.__module__], a dot, and the name of [fn]'s own class, a name
    in which the class of [a0] plays no part. That logger is the one the
    wrapper uses: along a run in which the traces on [lg] and the hook on
    [lg] return, the wrapper ends as the callable does, in the store these
    calls on [lg] leave; and the record of a [LogCall] interceptor is the
    last one, emitted on [lg]. *)
Theorem method_call_logger
    P self fn fr a0 rest st lg st1 c st2 st3 st4 :
  match lookup_attr P a0 "logger" st with
  | Some l => lg = l
  | None => ∃ m, fn_module fn = Some m
                 ∧ lg = getLogger (m +:+ "." +:+ fn_class_name fn)
  end →
  trace_in P self lg a0 st = (Normal tt, st1) →
  fn_body fn (a0 :: rest) [] st1 = (c, st2) →
  match c with
  | Normal _ => trace_out P self lg a0 st2 = (Normal tt, st3)
  | Raise _ => st3 = st2
  end →
  hook_reached c = true →
  log_f P self lg fr fn (a0 :: rest) [] (local_result c) st3 = (Normal tt, st4) →
  (∀ e, c = Raise e → exc_truthy e = true) →
  resolve_logger P fn (a0 :: rest) st = (Normal (lg, true), st)
  ∧ wrapped_f P self fn (Some fr) (a0 :: rest) st = (c, st4)
  ∧ (i_kind self = KLogCall →
     ∃ name file func sargs sres,
       lg = VLogger name
       ∧ st_records st4 =
           st_records st3 ++ [call_record name file (f_lineno fr) func sargs sres]).
Proof.
  intros Hlg Hin Hfn Hout Hreach Hhook Htruthy.
  pose proof (resolve_logger_method P fn a0 rest st lg Hlg) as Hres.
  split; [exact Hres |]. split.
  - apply (wrapped_f_run P self fn (Some fr) (a0 :: rest) st lg true st1 c st2 st3 st4);
      try done.
    + by rewrite Hreach.
    + intros e He _. by apply Htruthy.
  - intros Hk.
    destruct (LogCall_hook_record P self lg fr fn (a0 :: rest) (local_result c)
                st3 st4 Hk Hhook)
      as (name & file & func & sargs & sres & Hn & _ & _ & Hrec).
    by exists name, file, func, sargs, sres.
Qed.

Lemma method_call_logger_witness :
  resolve_logger P0 accepts_keywords [stranger; VInt 2] store0
    = (Normal (getLogger "app.function", true), store0)
  ∧ wrapped_f P0 (LogCall None) accepts_keywords (Some caller0)
      [stranger; VInt 2] store0
    = (Normal (VInt 1),
       (LogCall_log_f P0 (getLogger "app.function") caller0 accepts_keywords
          [stranger; VInt 2] [] (VInt 1) store0).2)
  ∧ (i_kind (LogCall None) = KLogCall →
     ∃ name file func sargs sres,
       getLogger "app.function" = VLogger name
       ∧ st_records
           (LogCall_log_f P0 (getLogger "app.function") caller0 accepts_keywords
              [stranger; VInt 2] [] (VInt 1) store0).2
         = st_records store0
             ++ [call_record name file (f_lineno caller0) func sargs sres]).
Proof.
  apply (method_call_logger P0 (LogCall None) accepts_keywords caller0 stranger
           [VInt 2] store0 (getLogger "app.function") store0 (Normal (VInt 1))
           store0 store0).
  - simpl. exists "app". by split.
  - reflexivity.
  - reflexivity.
  - reflexivity.
  - reflexivity.
  - reflexivity.
  - intros e H. discriminate H.
Defined.

Example bound_logger_is_used :
  (wrapped_f P0 (LogCall None) compute (Some caller0) [worker; VInt 2] store0).2
  = {| st_instances := st_instances store0; st_levels := ∅;
       st_records :=
         [LogRecord "app.Worker" "app.py 12: compute(<object>, 2) -> CRASHED" []] |}.
Proof. reflexivity. Qed.

Example unbound_logger_is_named_after_the_callable :
  st_records
    (wrapped_f P0 (LogCall None) compute (Some caller0) [stranger; VInt 2] store0).2
  = [LogRecord "app.function" "app.py 12: compute(<object>, 2) -> CRASHED" []].
Proof. reflexivity. Qed.

(** Without [__module__] on the callable and without [logger] on the
    first argument, the wrapper raises before the callable is called. *)
Example no_logger_and_no_module :
  ∀ body,
    wrapped_f P0 (LogCall None)
      {| fn_name := Some "f"; fn_module := None; fn_class_name := "C";
         fn_body := body |}
      (Some caller0) [stranger] store0
    = (Raise (builtin_exn "AttributeError" "__module__"), store0).
Proof. reflexivity. Qed.

(** C9. The type of any value is a class, so the flag [classfn] is set as
    soon as the wrapper gets a positional argument, whatever that argument
    is. The call then takes the path of a method call: the logger is
    resolved on the first argument, the entering and the leaving trace are
    run on it, around the callable. Without arguments the logger is the
    one named [fn.__module__] and no trace is run, whatever the policy
    says: the callable and the hook alone decide the outcome and the
    store. *)
Theorem positional_argument_means_method_call P self fn caller :
  (∀ v, isclass (type_of v) = true)
  ∧ (∀ a0 rest st lg cf st1 c st2 st3 st4,
       resolve_logger P fn (a0 :: rest) st = (Normal (lg, cf), st) →
       trace_in P self lg a0 st = (Normal tt, st1) →
       fn_body fn (a0 :: rest) [] st1 = (c, st2) →
       match c with
       | Normal _ => trace_out P self lg a0 st2 = (Normal tt, st3)
       | Raise _ => st3 = st2
       end →
       match caller with
       | Some fr =>
           if hook_reached c
           then log_f P self lg fr fn (a0 :: rest) [] (local_result c) st3
                = (Normal tt, st4)
           else st4 = st3
       | None => st4 = st3
       end →
       (∀ e, c = Raise e → exc_is_Exception e = true → exc_truthy e = true) →
       cf = true
       ∧ match lookup_attr P a0 "logger" st with
         | Some l => lg = l
         | None => ∃ m, fn_module fn = Some m
                        ∧ lg = getLogger (m +:+ "." +:+ fn_class_name fn)
         end
       ∧ wrapped_f P self fn caller (a0 :: rest) st = (c, st4))
  ∧ (∀ m st c st2 st4,
       fn_module fn = Some m →
       fn_body fn [] [] st = (c, st2) →
       match caller with
       | Some fr =>
           if hook_reached c
           then log_f P self (getLogger m) fr fn [] [] (local_result c) st2
                = (Normal tt, st4)
           else st4 = st2
       | None => st4 = st2
       end →
       (∀ e, c = Raise e → exc_is_Exception e = true → exc_truthy e = true) →
       resolve_logger P fn [] st = (Normal (getLogger m, false), st)
       ∧ wrapped_f P self fn caller [] st = (c, st4)).
Proof.
  split; [apply isclass_type_of |]. split.
  - intros a0 rest st lg cf st1 c st2 st3 st4 Hres Hin Hfn Hout Hhook Htruthy.
    destruct (resolve_logger_store P fn (a0 :: rest) st lg cf st Hres) as [_ Hcf].
    assert (cf = true) as -> by (by apply Hcf).
    split; [done |]. split.
    + rewrite resolve_logger_cons in Hres.
      destruct (lookup_attr P a0 "logger" st) as [l |]; [by inversion Hres |].
      destruct (fn_module fn) as [m |]; [| discriminate].
      inversion Hres. by exists m.
    + by apply (wrapped_f_run P self fn caller (a0 :: rest) st lg true
                  st1 c st2 st3 st4).
  - intros m st c st2 st4 Hm Hfn Hhook Htruthy.
    assert (Hres : resolve_logger P fn [] st = (Normal (getLogger m, false), st))
      by (by rewrite resolve_logger_nil, Hm).
    split; [exact Hres |].
    apply (wrapped_f_run P self fn caller [] st (getLogger m) false
             st c st2 st2 st4); try done.
    by destruct c.
Qed.

Lemma positional_argument_means_method_call_witness :
  (true = true
   ∧ match lookup_attr P0 (VInt 3) "logger" empty_store with
     | Some l => getLogger "app.function" = l
     | None => ∃ m, fn_module compute = Some m
                    ∧ getLogger "app.function"
                      = getLogger (m +:+ "." +:+ fn_class_name compute)
     end
   ∧ wrapped_f P0 (LogCallBase traced) compute (Some caller0)
       [VInt 3; VInt 4] empty_store
     = (Normal (VInt 7),
        (trace_out P0 (LogCallBase traced) (getLogger "app.function") (VInt 3)
           (trace_in P0 (LogCallBase traced) (getLogger "app.function") (VInt 3)
              empty_store).2).2))
  ∧ (resolve_logger P0 accepts_keywords [] empty_store
       = (Normal (getLogger "app", false), empty_store)
     ∧ wrapped_f P0 (LogCallBase traced) accepts_keywords (Some caller0) []
         empty_store
       = (Normal (VInt 1), empty_store)).
Proof.
  pose proof (positional_argument_means_method_call P0 (LogCallBase traced))
    as Hthm.
  split.
  - apply (proj1 (proj2 (Hthm compute (Some caller0))) (VInt 3) [VInt 4]
             empty_store (getLogger "app.function") true
             (trace_in P0 (LogCallBase traced) (getLogger "app.function") (VInt 3)
                empty_store).2
             (Normal (VInt 7))
             (trace_in P0 (LogCallBase traced) (getLogger "app.function") (VInt 3)
                empty_store).2
             (trace_out P0 (LogCallBase traced) (getLogger "app.function") (VInt 3)
                (trace_in P0 (LogCallBase traced) (getLogger "app.function")
                   (VInt 3) empty_store).2).2
             (trace_out P0 (LogCallBase traced) (getLogger "app.function") (VInt 3)
                (trace_in P0 (LogCallBase traced) (getLogger "app.function")
                   (VInt 3) empty_store).2).2).
    + reflexivity.
    + reflexivity.
    + reflexivity.
    + reflexivity.
    + reflexivity.
    + intros e H. discriminate H.
  - apply (proj2 (proj2 (Hthm accepts_keywords (Some caller0))) "app" empty_store
             (Normal (VInt 1)) empty_store empty_store).
    + reflexivity.
    + reflexivity.
    + reflexivity.
    + intros e H. discriminate H.
Defined.

(** An integer as first argument is enough for the paired trace. *)
Example trace_around_a_plain_function :
  wrapped_f P0 (LogCallBase traced) compute (Some caller0) [VInt 3; VInt 4] empty_store
  = (Normal (VInt 7),
     {| st_instances := ∅; st_levels := ∅;
        st_records :=
          [LogRecord "app.function" "tracein: job, traceattr: "
             [("trace_in", VStr "job"); ("traceattr", VStr "")];
           LogRecord "app.function" "traceout: job, traceattr: "
             [("trace_out", VStr "job"); ("traceattr", VStr "")]] |}).
Proof. reflexivity. Qed.

(** Without arguments the same policy emits nothing. *)
Example no_trace_without_arguments :
  wrapped_f P0 (LogCallBase traced) accepts_keywords (Some caller0) [] empty_store
  = (Normal (VInt 1), empty_store).
Proof. reflexivity. Qed.

Example no_argument_uses_the_module_logger :
  resolve_logger P0 accepts_keywords [] empty_store
  = (Normal (getLogger "app", false), empty_store).
Proof. reflexivity. Qed.

(** ** Transparency of the wrapper *)

(** C1, amended. Along a run in which the logger resolves, the entering
    trace returns, the callable ends with [c], the leaving trace returns
    (it is run when the callable returned), the hook returns (it is run
    when there is a calling frame, unless the callable raised something
    that is no [Exception]), and an [Exception] raised by the callable is
    truthy, the wrapper ends with [c] as well: it returns the value the
    callable returned, or raises the very exception object the callable
    raised. The store is the one the last of these calls left; a failed
    frame capture leaves the outcome as it is. *)
Theorem wrapper_completes_like_the_callable
    P self fn caller args st lg cf st1 c st2 st3 st4 :
  resolve_logger P fn args st = (Normal (lg, cf), st) →
  (if cf then trace_in P self lg (default VNone (head args)) else ret tt) st
    = (Normal tt, st1) →
  fn_body fn args [] st1 = (c, st2) →
  match c with
  | Normal _ =>
      (if cf then trace_out P self lg (default VNone (head args)) else ret tt) st2
        = (Normal tt, st3)
  | Raise _ => st3 = st2
  end →
  match caller with
  | Some fr =>
      if hook_reached c
      then log_f P self lg fr fn args [] (local_result c) st3 = (Normal tt, st4)
      else st4 = st3
  | None => st4 = st3
  end →
  (∀ e, c = Raise e → exc_is_Exception e = true → exc_truthy e = true) →
  wrapped_f P self fn caller args st = (c, st4).
Proof.
  intros Hres Hin Hfn Hout Hhook Htruthy.
  exact (wrapped_f_run P self fn caller args st lg cf st1 c st2 st3 st4
           Hres Hin Hfn Hout Hhook Htruthy).
Qed.

(** A method call under a paired trace, on an instance whose logger is
    bound: [advance] returns 1 and so does the wrapper. *)
Lemma wrapper_completes_like_the_callable_witness :
  wrapped_f P0 (LogCall traced) advance (Some caller0) [job] store_job
  = (Normal (VInt 1),
     (log_f P0 (LogCall traced) (VLogger "app.Job") caller0 advance [job] []
        (VInt 1)
        (trace_out P0 (LogCall traced) (VLogger "app.Job") job
           (fn_body advance [job] []
              (trace_in P0 (LogCall traced) (VLogger "app.Job") job
                 store_job).2).2).2).2).
Proof.
  apply (wrapper_completes_like_the_callable P0 (LogCall traced) advance
           (Some caller0) [job] store_job (VLogger "app.Job") true
           (trace_in P0 (LogCall traced) (VLogger "app.Job") job store_job).2
           (Normal (VInt 1))
           (fn_body advance [job] []
              (trace_in P0 (LogCall traced) (VLogger "app.Job") job
                 store_job).2).2
           (trace_out P0 (LogCall traced) (VLogger "app.Job") job
              (fn_body advance [job] []
                 (trace_in P0 (LogCall traced) (VLogger "app.Job") job
                    store_job).2).2).2).
  - reflexivity.
  - reflexivity.
  - reflexivity.
  - reflexivity.
  - vm_compute; reflexivity.
  - intros e H. discriminate H.
Defined.

Example traced_method_call_records :
  st_records
    (wrapped_f P0 (LogCall traced) advance (Some caller0) [job] store_job).2
  = [LogRecord "app.Job" "tracein: job, traceattr: new"
       [("trace_in", VStr "job"); ("traceattr", VStr "new")];
     LogRecord "app.Job" "traceout: job, traceattr: done"
       [("trace_out", VStr "job"); ("traceattr", VStr "done")];
     LogRecord "app.Job" "app.py 12: advance(<object>) -> 1" []].
Proof. vm_compute; reflexivity. Qed.

Example compute_3_4 :
  wrapped_f P0 (LogCall None) compute (Some caller0) [VInt 3; VInt 4] empty_store
  = (Normal (VInt 7),
     {| st_instances := ∅; st_levels := ∅;
        st_records := [LogRecord "app.function" "app.py 12: compute(3, 4) -> 7" []] |}).
Proof. reflexivity. Qed.

Example compute_1_0 :
  wrapped_f P0 (LogCall None) compute (Some caller0) [VInt 1; VInt 0] empty_store
  = (Raise ValueError_bad,
     {| st_instances := ∅; st_levels := ∅;
        st_records :=
          [LogRecord "app.function" "app.py 12: compute(1, 0) -> CRASHED" []] |}).
Proof. reflexivity. Qed.

(** Without a calling frame nothing is logged and the call still returns. *)
Example compute_without_frame :
  wrapped_f P0 (LogCall None) compute None [VInt 3; VInt 4] empty_store
  = (Normal (VInt 7), empty_store).
Proof. reflexivity. Qed.

(** C1 as stated fails: [compute_object] returns 7 on (3, 4), and the
    wrapper [LogCall] builds around it raises [AttributeError], because
    [log_f] reads [fn.__name__]. And [validate] raises an exception that
    is falsy, which the wrapper turns into the return of the sentinel. *)
Lemma wrapper_raises_though_callable_returns :
  (fn_body compute_object [VInt 3; VInt 4] [] empty_store
     = (Normal (VInt 7), empty_store)
   ∧ wrapped_f P0 (LogCall None) compute_object (Some caller0)
       [VInt 3; VInt 4] empty_store
     = (Raise (builtin_exn "AttributeError" "__name__"), empty_store))
  ∧ (fn_body validate [VInt 1] [] empty_store = (Raise EmptyErrors, empty_store)
     ∧ (wrapped_f P0 (LogCallBase None) validate (Some caller0) [VInt 1] empty_store).1
       = Normal (VStr "CRASHED")).
Proof. repeat split; reflexivity. Qed.

(** C2, at the failing input: [compute_object] raises [ValueError("bad")]
    on (1, 0); the hook then fails on [fn.__name__], and the wrapper raises
    the hook's [AttributeError] in place of the [ValueError]. *)
Theorem hook_failure_replaces_original_exception :
  fn_body compute_object [VInt 1; VInt 0] [] empty_store
    = (Raise ValueError_bad, empty_store)
  ∧ wrapped_f P0 (LogCall None) compute_object (Some caller0)
      [VInt 1; VInt 0] empty_store
    = (Raise (builtin_exn "AttributeError" "__name__"), empty_store)
  ∧ (wrapped_f P0 (LogCall None) compute_object (Some caller0)
       [VInt 1; VInt 0] empty_store).1 ≠ Raise ValueError_bad.
Proof. repeat split; try reflexivity. discriminate. Qed.

(** A frame-capture failure never replaces the callable's exception, and
    never surfaces itself. *)
Lemma frame_failure_keeps_outcome P self fn lg cf args st :
  ∀ result err st1,
    guarded_call P self fn lg cf args st = (Normal (result, err), st1) →
    logged_call P self fn None lg cf args st
    = finally_clause err result None st1.
Proof.
  intros result err st1 H. unfold logged_call, bind. rewrite H. simpl.
  by destruct err.
Qed.

(** ** The crash sentinel *)

(** When [fn] raises an [Exception], the locals become the sentinel and
    the exception, in the store [fn] left: no leaving trace is emitted. *)
Lemma guarded_call_crash P self fn lg (cf : bool) args st st1 e st2 :
  (if cf then trace_in P self lg (default VNone (head args)) else ret tt) st
    = (Normal tt, st1) →
  fn_body fn args [] st1 = (Raise e, st2) →
  exc_is_Exception e = true →
  guarded_call P self fn lg cf args st = (Normal (VStr "CRASHED", Some e), st2).
Proof.
  intros Hin Hfn He.
  unfold guarded_call, try_except_Exception, bind. by rewrite Hin, Hfn, He.
Qed.

(** After a crash [err] holds an exception when the [finally] clause is
    reached: the callable's own, or the hook's when the hook raised. The
    wrapper raises it when it is truthy; the sentinel is returned when it
    is not. *)
Lemma logged_call_after_crash P self fn caller lg cf args st e st1 :
  guarded_call P self fn lg cf args st = (Normal (VStr "CRASHED", Some e), st1) →
  ∃ e' st2,
    logged_call P self fn caller lg cf args st
    = ((if exc_truthy e' then Raise e' else Normal (VStr "CRASHED")), st2).
Proof.
  intros H. unfold logged_call, bind. rewrite H. simpl.
  destruct (guarded_log P self fn caller lg args (VStr "CRASHED") (Some e) st1)
    as [[err fl] st2] eqn:Hg.
  assert (∃ e', err = Some e') as [e' ->].
  { unfold guarded_log in Hg.
    destruct (sys_getframe caller st1) as [[fr | e0] st'].
    - destruct (log_f P self lg fr fn args [] (VStr "CRASHED") st') as [[[] | e0] st''].
      + inversion Hg. eauto.
      + destruct (exc_is_Exception e0); simpl in Hg; inversion Hg; eauto.
    - destruct (exc_is_Exception e0); simpl in Hg; inversion Hg; eauto. }
  exists e', st2. simpl. by destruct (exc_truthy e').
Qed.

(** C7, at the failing inputs. With a paired trace declared,
    [compute_object] raises [ValueError("bad")] on (1, 0): the entering
    trace is the only record and the sentinel is not returned, but the
    exception raised is the hook's [AttributeError], not the
    [ValueError]. And [validate] raises a falsy exception: there the
    wrapper returns the sentinel to the caller. *)
Theorem crash_sentinel_defects :
  wrapped_f P0 (LogCall traced) compute_object (Some caller0)
    [VInt 1; VInt 0] empty_store
  = (Raise (builtin_exn "AttributeError" "__name__"),
     {| st_instances := ∅; st_levels := ∅;
        st_records :=
          [LogRecord "app.Compute" "tracein: job, traceattr: "
             [("trace_in", VStr "job"); ("traceattr", VStr "")]] |})
  ∧ fn_body validate [VInt 1] [] empty_store = (Raise EmptyErrors, empty_store)
  ∧ wrapped_f P0 (LogCall None) validate (Some caller0) [VInt 1] empty_store
    = (Normal (VStr "CRASHED"),
       {| st_instances := ∅; st_levels := ∅;
          st_records :=
            [LogRecord "app.function" "app.py 12: validate(1) -> CRASHED" []] |}).
Proof. repeat split; reflexivity. Qed.

(** ** Binding a logger *)

Lemma lookup_attr_own P c r name st x :
  name ≠ "__class__" →
  instance_attr (VObj c r) name st = Some x →
  lookup_attr P (VObj c r) name st = Some x.
Proof.
  intros Hn Hx. unfold lookup_attr.
  rewrite bool_decide_eq_false_2 by done. by rewrite Hx.
Qed.

Lemma setattr_logger P c r lg st :
  ∃ st0, setattr (VObj c r) "logger" lg st = (Normal tt, st0)
         ∧ lookup_attr P (VObj c r) "logger" st0 = Some lg
         ∧ st_records st0 = st_records st
         ∧ st_levels st0 = st_levels st.
Proof.
  eexists. split; [reflexivity |]. split; [| by split].
  apply lookup_attr_own; [done |].
  simpl. unfold get_instance at 1. simpl.
  rewrite lookup_insert_eq. simpl. by rewrite lookup_insert_eq.
Qed.

(** ** Setting the level *)

Lemma checkLevel_store P level st : (checkLevel P level st).2 = st.
Proof.
  destruct level as [| b | n | s | | | |]; try reflexivity.
  - lazy beta iota delta [checkLevel].
    by destruct (dict_get level_names s).
  - lazy beta iota delta [checkLevel]. unfold bind.
    pose proof (py_str_store P (VObj c r) st) as H.
    destruct (py_str P (VObj c r) st) as [[x | e] st']; simpl in H; by subst.
Qed.

Lemma setLevel_logger P name level st :
  setLevel P (VLogger name) level st =
    match (checkLevel P level st).1 with
    | Normal rv =>
        (Normal tt,
         {| st_instances := st_instances st;
            st_levels := <[name := rv]> (st_levels st);
            st_records := st_records st |})
    | Raise e => (Raise e, st)
    end.
Proof.
  pose proof (checkLevel_store P level st) as H.
  lazy beta iota delta [setLevel]. unfold bind.
  destruct (checkLevel P level st) as [[rv | e] st']; simpl in H; by subst.
Qed.

(** A level is accepted when it is an integer, a boolean, or one of the
    names [logging] knows; a string that is not such a name is refused
    with [ValueError], any other value with [TypeError], unless it is an
    instance whose [__str__] raises. *)
Lemma checkLevel_cases P level st :
  (checkLevel P level st).1 =
    match level with
    | VInt _ | VBool _ => Normal level
    | VStr s =>
        match dict_get level_names s with
        | Some n => Normal (VInt n)
        | None => Raise (builtin_exn "ValueError" ("Unknown level: '" +:+ s +:+ "'"))
        end
    | VObj _ _ =>
        match (py_str P level st).1 with
        | Normal _ =>
            Raise (builtin_exn "TypeError" "Level not an integer or a valid string")
        | Raise e => Raise e
        end
    | _ => Raise (builtin_exn "TypeError" "Level not an integer or a valid string")
    end.
Proof.
  destruct level as [| b | n | s | | | |]; try reflexivity.
  - lazy beta iota delta [checkLevel].
    by destruct (dict_get level_names s).
  - lazy beta iota delta [checkLevel]. unfold bind.
    by destruct (py_str P (VObj c r) st) as [[x | e] st'].
Qed.

Lemma checkLevel_accepted P level st :
  accepted_level level = true →
  ∃ rv, (checkLevel P level st).1 = Normal rv.
Proof.
  intros H. rewrite checkLevel_cases.
  destruct level as [| b | n | s | | | |]; try discriminate; eauto.
  unfold accepted_level in H. apply bool_decide_eq_true in H as [n Hn].
  rewrite Hn. eauto.
Qed.

(** ** The installed constructor *)

(** On an instance without a truthy [logger], lines 201-205 bind the
    logger named after the class of the instance; lines 207-208 then hand
    the level of the policy, when there is one, to [setLevel]. *)
Lemma init_logger_unbound P self_args c r st :
  (∀ v, lookup_attr P (VObj c r) "logger" st = Some v → truthy v = false) →
  ∃ st0,
    lookup_attr P (VObj c r) "logger" st0
      = Some (getLogger (cls_module c +:+ "." +:+ cls_name c))
    ∧ st_records st0 = st_records st
    ∧ st_levels st0 = st_levels st
    ∧ init_logger P self_args (VObj c r) st
      = match self_args ≫= (.!! "level") with
        | Some level =>
            setLevel P (getLogger (cls_module c +:+ "." +:+ cls_name c)) level st0
        | None => (Normal tt, st0)
        end.
Proof.
  intros Hfalsy.
  set (name := cls_module c +:+ "." +:+ cls_name c).
  destruct (setattr_logger P c r (getLogger name) st)
    as (st0 & Hset & Hlg & Hrec & Hlev).
  exists st0. split; [exact Hlg |]. split; [exact Hrec |]. split; [exact Hlev |].
  unfold init_logger.
  assert (Hbound :
    (has <- hasattr P (VObj c r) "logger" ;;
     (if has : bool then l <- getattr P (VObj c r) "logger" ;; ret (truthy l)
      else ret false)) st = (Normal false, st)).
  { unfold bind, hasattr, getattr.
    destruct (lookup_attr P (VObj c r) "logger" st) as [v |] eqn:E.
    - rewrite bool_decide_eq_true_2 by eauto. rewrite E. simpl.
      by rewrite (Hfalsy v eq_refl).
    - by rewrite bool_decide_eq_false_2 by (intros [? ?]; discriminate). }
  rewrite <- bind_assoc. rewrite (bind_normal _ _ _ _ _ Hbound). simpl negb.
  rewrite (bind_normal _ _ st true st eq_refl). fold name.
  change (class_of (VObj c r)) with c. fold name.
  rewrite (bind_normal _ _ _ _ _ Hset).
  destruct self_args as [d |]; simpl; [| reflexivity].
  destruct (d !! "level") as [level |] eqn:Hl; simpl.
  - assert (d ≠ ∅) by (intros ->; by rewrite lookup_empty in Hl).
    case_bool_decide; [done |]. simpl.
    unfold bind at 1. unfold getattr. rewrite Hlg. reflexivity.
  - by destruct (negb (bool_decide (d = ∅))).
Qed.

(** On an instance whose [logger] is truthy, line 203 is reached and
    raises, whatever the policy: the subscript fails on [None] and on a
    dictionary without [inherit_logger], and the call of [keyIsTrue] with
    one argument fails otherwise. *)
Lemma init_logger_bound P self_args obj st v :
  lookup_attr P obj "logger" st = Some v →
  truthy v = true →
  ∃ e, init_logger P self_args obj st = (Raise e, st)
       ∧ exc_type e = line_203_error self_args.
Proof.
  intros Hv Ht. unfold init_logger, line_203_error.
  assert (Hhas : hasattr P obj "logger" st = (Normal true, st)).
  { unfold hasattr. rewrite Hv. by rewrite bool_decide_eq_true_2 by eauto. }
  rewrite (bind_normal _ _ _ _ _ Hhas).
  assert (Hbound : (l <- getattr P obj "logger" ;; ret (truthy l)) st
                   = (Normal true, st)).
  { unfold bind, getattr, ret. by rewrite Hv, Ht. }
  rewrite (bind_normal _ _ _ _ _ Hbound). simpl negb. cbv iota.
  unfold bind at 1. unfold bind at 1. unfold lift, subscript.
  destruct self_args as [d |]; [| by eexists].
  destruct (d !! "inherit_logger") as [x |].
  - eexists. split; [reflexivity |].
    by rewrite bool_decide_eq_true_2 by eauto.
  - eexists. split; [reflexivity |].
    by rewrite bool_decide_eq_false_2 by (by intros [? ?]).
Qed.

(** C3, amended. A constructor installed by [LogClass] that finds no
    truthy [logger] on the instance binds [instance.logger] to the logger
    named after the class of the instance itself, module and name, whatever
    the policy says about [inherit_logger] and whichever class of the chain
    the constructor was installed on, and emits nothing. When the policy
    has a [level], the level is checked next: a level that [logging]
    accepts is set on that logger, and one it refuses ends the constructor
    with the error of [setLevel], the logger staying bound. With no level
    or an accepted one the constructor then hands over to the original
    constructor. *)
Theorem constructor_binds_logger_of_instance_class
    P self_args original_init caller c r rest kw st :
  (∀ v, lookup_attr P (VObj c r) "logger" st = Some v → truthy v = false) →
  ∃ st0,
    lookup_attr P (VObj c r) "logger" st0
      = Some (getLogger (cls_module c +:+ "." +:+ cls_name c))
    ∧ st_records st0 = st_records st
    ∧ st_levels st0 = st_levels st
    ∧ run_member P (MInit self_args original_init) caller (VObj c r :: rest) kw st
      = let original st1 :=
          match original_init with
          | Some m' =>
              (run_member P m' (Some (init_frame P)) (VObj c r :: rest) kw ;;;
               ret VNone) st1
          | None => (Normal VNone, st1)
          end in
        match self_args ≫= (.!! "level") with
        | None => original st0
        | Some level =>
            match (checkLevel P level st0).1 with
            | Normal rv =>
                original
                  {| st_instances := st_instances st0;
                     st_levels :=
                       <[cls_module c +:+ "." +:+ cls_name c := rv]> (st_levels st0);
                     st_records := st_records st0 |}
            | Raise e => (Raise e, st0)
            end
        end.
Proof.
  intros Hfalsy.
  destruct (init_logger_unbound P self_args c r st Hfalsy)
    as (st0 & Hlg & Hrec & Hlev & Hinit).
  exists st0. split; [exact Hlg |]. split; [exact Hrec |]. split; [exact Hlev |].
  simpl run_member. cbv zeta. unfold bind at 1. rewrite Hinit.
  destruct (self_args ≫= (.!! "level")) as [level |].
  - unfold getLogger. rewrite setLevel_logger.
    destruct (checkLevel P level st0).1 as [rv | e]; [| reflexivity].
    by destruct original_init.
  - by destruct original_init.
Qed.

Lemma constructor_binds_logger_of_instance_class_witness :
  ∃ st0,
    lookup_attr P0 (VObj (ClsId "app" "Derived") 0) "logger" st0
      = Some (getLogger "app.Derived")
    ∧ st_records st0 = st_records empty_store
    ∧ st_levels st0 = st_levels empty_store
    ∧ run_member P0 (MInit leveled (Some (MFunc object_init))) (Some caller0)
        [VObj (ClsId "app" "Derived") 0] [] empty_store
      = (run_member P0 (MFunc object_init) (Some (init_frame P0))
           [VObj (ClsId "app" "Derived") 0] [] ;;; ret VNone)%py
          {| st_instances := st_instances st0;
             st_levels := <["app.Derived" := VInt 10]> (st_levels st0);
             st_records := st_records st0 |}.
Proof.
  apply (constructor_binds_logger_of_instance_class P0 leveled
           (Some (MFunc object_init)) (Some caller0) (ClsId "app" "Derived") 0%nat
           [] [] empty_store).
  intros v H. vm_compute in H. discriminate H.
Defined.

(** A level that [logging] refuses: the constructor raises once the logger
    is bound, and the original constructor is not called. *)
Example refused_level_ends_the_constructor :
  ∀ original_init,
    (run_member P0 (MInit (Some {["level" := VStr "bogus"]}) original_init)
       (Some caller0) [stranger] [] store0).1
    = Raise (builtin_exn "ValueError" "Unknown level: 'bogus'")
    ∧ (run_member P0 (MInit (Some {["level" := VNone]}) original_init)
         (Some caller0) [stranger] [] store0).1
      = Raise (builtin_exn "TypeError" "Level not an integer or a valid string")
    ∧ lookup_attr P0 stranger "logger"
        (run_member P0 (MInit (Some {["level" := VStr "bogus"]}) original_init)
           (Some caller0) [stranger] [] store0).2
      = Some (getLogger "app.Worker").
Proof. intros o. repeat split; vm_compute; reflexivity. Qed.

Example level_name_is_translated :
  st_levels
    (run_member P0 (MInit (Some {["level" := VStr "DEBUG"]}) None)
       (Some caller0) [stranger] [] store0).2
  = {["app.Worker" := VInt 10]}.
Proof. vm_compute; reflexivity. Qed.

(** C3 as stated fails twice. With [inherit_logger] true on [Base] and on
    [Derived], constructing a [Derived] raises [TypeError] once the second
    constructor of the chain finds the logger. And with [Base] alone
    decorated, the constructor installed on [Base] names the logger of a
    [Derived] instance after [Derived], not after [Base]. *)
Lemma inherited_logger_chain_fails :
  (construct P0 (decorate_both inherit_on inherit_on) "Derived" (Some caller0)
     [] [] empty_store).1
    = Raise (builtin_exn "TypeError"
               "keyIsTrue() missing 1 required positional argument: 'key'")
  ∧ (construct P0 (decorate_base None) "Derived" (Some caller0) [] [] empty_store).1
    = Normal (VObj (ClsId "app" "Derived") 0)
  ∧ lookup_attr P0 (VObj (ClsId "app" "Derived") 0) "logger"
      (construct P0 (decorate_base None) "Derived" (Some caller0) [] [] empty_store).2
    = Some (getLogger "app.Derived").
Proof. repeat split; vm_compute; reflexivity. Qed.

(** ** Lookups in the policy *)

Lemma keyIsTrue_absent d key : d !! key = None → keyIsTrue (Some d) key = false.
Proof. intros H. unfold keyIsTrue. rewrite H. by destruct (bool_decide _). Qed.

Lemma haskey_absent d key : d !! key = None → haskey (Some d) key = false.
Proof.
  intros H. unfold haskey. destruct (bool_decide (d = ∅)); [done |].
  apply bool_decide_eq_false_2. rewrite H. by intros [? ?].
Qed.

(** C4, at the failing inputs: with a policy that lacks [inherit_logger] on
    [Base] and on [Derived], constructing a [Derived] raises [KeyError];
    with no policy at all it raises [TypeError], from the subscript of
    [None]. *)
Theorem absent_inherit_logger_raises :
  (construct P0 (decorate_both subdecorate_on subdecorate_on) "Derived"
     (Some caller0) [] [] empty_store).1
    = Raise (builtin_exn "KeyError" "inherit_logger")
  ∧ (construct P0 (decorate_both None None) "Derived"
       (Some caller0) [] [] empty_store).1
    = Raise (builtin_exn "TypeError" "'NoneType' object is not subscriptable").
Proof. split; vm_compute; reflexivity. Qed.

(** ** Class dictionaries *)

Lemma dict_get_set_eq {A} (d : list (string * A)) k a :
  dict_get (dict_set d k a) k = Some a.
Proof.
  induction d as [| [k' a'] d IH]; simpl.
  - by rewrite bool_decide_eq_true_2.
  - destruct (bool_decide (k' = k)) eqn:E; simpl.
    + by rewrite bool_decide_eq_true_2.
    + by rewrite E.
Qed.

Lemma dict_get_set_ne {A} (d : list (string * A)) k k' a :
  k ≠ k' → dict_get (dict_set d k a) k' = dict_get d k'.
Proof.
  intros Hne. induction d as [| [k0 a0] d IH]; simpl.
  - by rewrite bool_decide_eq_false_2.
  - destruct (bool_decide (k0 = k)) eqn:E; simpl.
    + apply bool_decide_eq_true in E. subst k0.
      by rewrite !bool_decide_eq_false_2.
    + by rewrite IH.
Qed.

Lemma class_getattr_own ct klas key x :
  heads_own_mro ct klas →
  own_member ct klas key = Some x →
  class_getattr ct klas key = Some x.
Proof.
  intros (c & rest & Hc & Hmro) Hown.
  unfold class_getattr, class_mro. rewrite Hc, Hmro. simpl.
  unfold own_member in Hown. rewrite Hc in *. simpl in *. by rewrite Hown.
Qed.

Lemma class_setattr_heads ct klas key m :
  heads_own_mro ct klas → heads_own_mro (class_setattr ct klas key m) klas.
Proof.
  intros (c & rest & Hc & Hmro). unfold class_setattr. rewrite Hc.
  eexists _, rest. rewrite lookup_insert_eq. by split.
Qed.

Lemma class_setattr_own ct klas key m k :
  heads_own_mro ct klas →
  own_member (class_setattr ct klas key m) klas k
  = if bool_decide (key = k) then Some m else own_member ct klas k.
Proof.
  intros (c & rest & Hc & Hmro). unfold class_setattr, own_member.
  rewrite Hc, lookup_insert_eq. simpl.
  destruct (bool_decide (key = k)) eqn:E.
  - apply bool_decide_eq_true in E. subst k. apply dict_get_set_eq.
  - apply bool_decide_eq_false in E. by apply dict_get_set_ne.
Qed.

(** What one turn of the loop does to the own dictionary of [klas]. *)
Lemma subdecorate_step_heads P klas ct e :
  heads_own_mro ct klas → heads_own_mro (subdecorate_step P klas ct e) klas.
Proof.
  intros H. unfold subdecorate_step.
  destruct (member_subdecorate e.2); [| done].
  destruct (class_getattr ct klas e.1); [| done].
  destruct (negb _); [by apply class_setattr_heads | done].
Qed.

Lemma subdecorate_step_other P klas ct e k :
  heads_own_mro ct klas → e.1 ≠ k →
  own_member (subdecorate_step P klas ct e) klas k = own_member ct klas k.
Proof.
  intros H Hne. unfold subdecorate_step.
  destruct (member_subdecorate e.2); [| done].
  destruct (class_getattr ct klas e.1); [| done].
  destruct (negb _); [| done].
  rewrite class_setattr_own by done. by rewrite bool_decide_eq_false_2.
Qed.

Lemma subdecorate_step_same P klas ct e x :
  heads_own_mro ct klas →
  own_member ct klas e.1 = Some x →
  own_member (subdecorate_step P klas ct e) klas e.1
  = Some (match member_subdecorate e.2 with
          | Some deco =>
              if member_loghook x then x
              else MWrapped (hook deco (as_pyfunc P x))
          | None => x
          end).
Proof.
  intros H Hown. unfold subdecorate_step.
  destruct (member_subdecorate e.2) as [deco |]; [| done].
  rewrite (class_getattr_own ct klas e.1 x H Hown).
  destruct (member_loghook x); simpl; [done |].
  rewrite class_setattr_own by done. by rewrite bool_decide_eq_true_2.
Qed.

(** A member that is already wrapped stays as it is. *)
Lemma scan_keeps_wrapped P klas es : ∀ ct k x,
  heads_own_mro ct klas →
  own_member ct klas k = Some x →
  member_loghook x = true →
  own_member (foldl (subdecorate_step P klas) ct es) klas k = Some x
  ∧ heads_own_mro (foldl (subdecorate_step P klas) ct es) klas.
Proof.
  induction es as [| e es IH]; intros ct k x Hh Hown Hx; simpl; [done |].
  apply IH; [by apply subdecorate_step_heads | | done].
  destruct (decide (e.1 = k)) as [<- | Hne].
  - rewrite (subdecorate_step_same P klas ct e x Hh Hown), Hx.
    by destruct (member_subdecorate e.2).
  - by rewrite subdecorate_step_other.
Qed.


(** ** Decorating a subclass *)


(** [LogClass] with [subdecorate] marks the class it decorates. *)
Lemma LogClass_call_marks P args klas ct ct' :
  keyIsTrue args "subdecorate" = true →
  heads_own_mro ct klas →
  LogClass_call P args klas ct = Normal ct' →
  ∃ c, ct' !! klas = Some c ∧ c_subdecorate c = Some args.
Proof.
  intros Hkey (c & rest & Hc & Hmro) H.
  unfold LogClass_call in H. rewrite Hc, Hkey in H.
  destruct (c_mro c !! 1%nat) as [parent |]; [| discriminate].
  set (ct1 := <[klas := _]> ct) in H.
  assert (Hh1 : heads_own_mro ct1 klas).
  { eexists _, rest. unfold ct1. rewrite lookup_insert_eq. by split. }
  assert (Hs1 : ∀ c1, ct1 !! klas = Some c1 → c_subdecorate c1 = Some args).
  { intros c1. unfold ct1. rewrite lookup_insert_eq. by intros [= <-]. }
  set (ct2 := match class_subdecorate ct1 parent with
              | Some _ => _
              | None => ct1
              end) in H.
  assert (H2 : ∃ c2, ct2 !! klas = Some c2 ∧ c_subdecorate c2 = Some args).
  { unfold ct2. destruct (class_subdecorate ct1 parent).
    - generalize (default [] (c_dict <$> ct1 !! parent)). intros es.
      revert Hh1 Hs1. generalize ct1. clear.
      induction es as [| e es IH]; intros ct (c & rest & Hc & Hmro) Hs; simpl.
      + eauto.
      + apply IH.
        * apply subdecorate_step_heads. by eexists _, _.
        * intros c1. unfold subdecorate_step.
          destruct (member_subdecorate e.2); [| apply Hs].
          destruct (class_getattr ct klas e.1); [| apply Hs].
          destruct (negb _); [| apply Hs].
          unfold class_setattr. rewrite Hc, lookup_insert_eq.
          intros [= <-]. simpl. by apply Hs.
    - destruct Hh1 as (c1 & ? & Hc1 & ?). eauto. }
  destruct H2 as (c2 & Hc2 & Hs2).
  unfold class_setattr in H. rewrite Hc2, lookup_insert_eq in H.
  inversion H; subst ct'. eexists. rewrite lookup_insert_eq. by split.
Qed.




(** The whole scenario, run: decorate [S], construct an instance, call
    [m] on it. *)
Example subclass_method_is_logged :
  let ct := decorated (LogClass_call P0 None "S" T_decorated) in
  let made := construct P0 ct "S" (Some caller0) [] [] empty_store in
  made.1 = Normal an_S
  ∧ lookup_attr P0 an_S "logger" made.2 = Some (VLogger "app.S")
  ∧ (invoke P0 ct an_S "m" (Some caller0) [VInt 5] [] made.2).1 = Normal (VStr "S.m")
  ∧ st_records (invoke P0 ct an_S "m" (Some caller0) [VInt 5] [] made.2).2
    = [LogRecord "app.S" "app.py 12: m(<object>, 5) -> S.m" []].
Proof. repeat split; vm_compute; reflexivity. Qed.

(** The scan reads the dictionary of the class next in the MRO only: when
    [Derived] overrides a member declared two classes up, and the class in
    between does not define it, the override stays as it is. *)
Example override_two_levels_down_is_not_rewrapped :
  let top := <["Top" := {| c_id := ClsId "app" "Top"; c_mro := ["Top"; "object"];
                          c_dict := [("m", MWrapped (hook (LogCall subdecorate_on) m_of_T))];
                          c_loghook := None; c_subdecorate := None |}]>
               {["object" := object_class]} in
  let mid := <["Mid" := {| c_id := ClsId "app" "Mid"; c_mro := ["Mid"; "Top"; "object"];
                          c_dict := []; c_loghook := None; c_subdecorate := None |}]> top in
  let low := <["Low" := {| c_id := ClsId "app" "Low";
                          c_mro := ["Low"; "Mid"; "Top"; "object"];
                          c_dict := [("m", MFunc m_of_S)];
                          c_loghook := None; c_subdecorate := None |}]> mid in
  let ct := decorated (LogClass_call P0 None "Low"
              (decorated (LogClass_call P0 None "Mid"
                 (decorated (LogClass_call P0 subdecorate_on "Top" low))))) in
  member_loghook <$> class_getattr ct "Low" "m" = Some false.
Proof. vm_compute; reflexivity. Qed.

(** The decorations of the scenarios go through. *)
Example scenario_decorations_succeed :
  (∃ ct, LogClass_call P0 inherit_on "Base" hierarchy0 = Normal ct)
  ∧ (∃ ct, LogClass_call P0 inherit_on "Derived" (decorate_base inherit_on) = Normal ct)
  ∧ (∃ ct, LogClass_call P0 None "S" T_decorated = Normal ct).
Proof. repeat split; eexists; vm_compute; reflexivity. Qed.

(** * Further properties of the code *)

(** ** Display strings *)

(** When [str(obj)] raises, [toStr] shows the class of the object. *)
Example toStr_of_an_object_that_cannot_be_shown :
  toStr P0 (VObj (ClsId "app" "Worker") 7)
    {| st_instances :=
         {[ 7%nat := bare ∅ (Some (Raise (builtin_exn "RuntimeError" "no"))) ]};
       st_levels := ∅; st_records := [] |}
  = (Normal "<class 'app.Worker'>",
     {| st_instances :=
          {[ 7%nat := bare ∅ (Some (Raise (builtin_exn "RuntimeError" "no"))) ]};
        st_levels := ∅; st_records := [] |}).
Proof. reflexivity. Qed.

(** A negative limit is exceeded by every display string. *)
Example toShortStr_with_negative_limit :
  toShortStr P0 (VStr "") (-1) empty_store = (Normal "<class 'str'>", empty_store).
Proof. reflexivity. Qed.

(** ** Policy lookups *)

(** X3. [keyIsTrue] holds exactly when the policy is a dictionary that
    maps the key to [True] or to the integer 1, the values equal to
    [True]; another truthy value, such as a non-empty string, does not
    count. Whenever it holds, [haskey] holds. *)
Theorem keyIsTrue_means_equal_to_True dic key :
  (keyIsTrue dic key = true ↔
     ∃ d, dic = Some d
          ∧ (d !! key = Some (VBool true) ∨ d !! key = Some (VInt 1)))
  ∧ (keyIsTrue dic key = true → haskey dic key = true).
Proof.
  split.
  - split.
    + destruct dic as [d |]; [| discriminate]. simpl.
      case_bool_decide; [discriminate |].
      destruct (d !! key) as [[| [] | n | | | | |] |] eqn:E; try discriminate.
      * intros _. exists d. eauto.
      * simpl. intros Hn. apply bool_decide_eq_true in Hn. subst n.
        exists d. eauto.
    + intros (d & -> & Hd). simpl.
      case_bool_decide as He.
      * subst d. rewrite lookup_empty in Hd. by destruct Hd.
      * by destruct Hd as [-> | ->].
  - destruct dic as [d |]; [| discriminate]. simpl.
    case_bool_decide; [discriminate |].
    destruct (d !! key); [| discriminate].
    intros _. by apply bool_decide_eq_true_2.
Qed.

Lemma keyIsTrue_means_equal_to_True_witness :
  keyIsTrue (Some {["subdecorate" := VInt 1]}) "subdecorate" = true
  ∧ haskey (Some {["subdecorate" := VInt 1]}) "subdecorate" = true.
Proof.
  assert (H : keyIsTrue (Some {["subdecorate" := VInt 1]}) "subdecorate" = true).
  { apply (proj1 (keyIsTrue_means_equal_to_True
                    (Some {["subdecorate" := VInt 1]}) "subdecorate")).
    eexists. split; [reflexivity |]. right. reflexivity. }
  split; [exact H |].
  exact (proj2 (keyIsTrue_means_equal_to_True
                  (Some {["subdecorate" := VInt 1]}) "subdecorate") H).
Defined.

Example truthy_string_does_not_enable :
  keyIsTrue (Some {["subdecorate" := VStr "yes"]}) "subdecorate" = false
  ∧ haskey (Some {["subdecorate" := VStr "yes"]}) "subdecorate" = true.
Proof. split; reflexivity. Qed.

(** ** The hook of [LogCall] *)

Lemma toStr_of_a_string P k st : toStr P (VStr k) st = (Normal k, st).
Proof. reflexivity. Qed.

Lemma keyword_items_total P st (kw : kwargs) :
  ∃ items,
    mapM (λ kv : string * pyval,
            k <- toStr P (VStr kv.1) ;;
            v <- toShortStr P kv.2 20 ;;
            ret (k +:+ "=" +:+ v)) kw st = (Normal items, st)
    ∧ Forall2 (λ kv item, ∃ sv, toShortStr P kv.2 20 st = (Normal sv, st)
                                ∧ item = kv.1 +:+ "=" +:+ sv) kw items.
Proof.
  induction kw as [| [k v] kw IH]; simpl.
  - exists []. split; [reflexivity | constructor].
  - destruct IH as (items & Hitems & Hall).
    destruct (toShortStr_total P v 20 st) as [sv Hsv].
    exists ((k +:+ "=" +:+ sv) :: items). split.
    + assert (Hitem : (k0 <- toStr P (VStr k) ;;
                       v0 <- toShortStr P v 20 ;;
                       ret (k0 +:+ "=" +:+ v0)) st
                      = (Normal (k +:+ "=" +:+ sv), st)).
      { unfold bind. by rewrite toStr_of_a_string, Hsv. }
      rewrite (bind_normal _ _ _ _ _ Hitem).
      by rewrite (bind_normal _ _ _ _ _ Hitems).
    + constructor; [| exact Hall]. simpl. eauto.
Qed.

(** The argument list as [log_f] builds it, for any keyword dictionary. *)
Lemma LogCall_arglist P st args (kw : kwargs) :
  ∃ sargs items,
    Forall2 (λ a s, toShortStr P a 20 st = (Normal s, st)) args sargs
    ∧ Forall2 (λ kv item, ∃ sv, toShortStr P kv.2 20 st = (Normal sv, st)
                                ∧ item = kv.1 +:+ "=" +:+ sv) kw items
    ∧ ∀ B (k : string → py B),
        (shorts <- mapM (λ a, toShortStr P a 20) args ;;
         bind (match kw with
               | [] => ret (String.concat ", " shorts)
               | _ :: _ =>
                   items <- mapM (λ kv : string * pyval,
                                    k <- toStr P (VStr kv.1) ;;
                                    v <- toShortStr P kv.2 20 ;;
                                    ret (k +:+ "=" +:+ v)) kw ;;
                   ret (String.concat ", " shorts +:+ ", "
                          +:+ String.concat ", " items)
               end) k) st
        = k (match kw with
             | [] => String.concat ", " sargs
             | _ :: _ => String.concat ", " sargs +:+ ", "
                           +:+ String.concat ", " items
             end) st.
Proof.
  destruct (mapM_total (λ a, toShortStr P a 20) st
              (λ a, toShortStr_total P a 20 st) args) as [sargs [Hm Hall]].
  destruct (keyword_items_total P st kw) as (items & Hitems & Hkw).
  exists sargs, items. split; [exact Hall |]. split; [exact Hkw |].
  intros B k. rewrite (bind_normal _ _ _ _ _ Hm).
  destruct kw as [| kv kw'].
  - reflexivity.
  - rewrite bind_assoc. by rewrite (bind_normal _ _ _ _ _ Hitems).
Qed.

(** X5. With keyword arguments, the record shows the positional arguments,
    a comma, and the keywords as [key=value], each value shortened like an
    argument; when there is no positional argument the list therefore
    starts with a comma. *)
Theorem LogCall_record_with_keywords P name fr fn args kw result st st' :
  kw ≠ [] →
  LogCall_log_f P (VLogger name) fr fn args kw result st = (Normal tt, st') →
  ∃ file func sargs items sres,
    Forall2 (λ a s, toShortStr P a 20 st = (Normal s, st)) args sargs
    ∧ Forall2 (λ kv item, ∃ sv, toShortStr P kv.2 20 st = (Normal sv, st)
                                ∧ item = kv.1 +:+ "=" +:+ sv) kw items
    ∧ toShortStr P result 20 st = (Normal sres, st)
    ∧ fn_name fn = Some func
    ∧ relpath P (co_filename fr) = Normal file
    ∧ st_records st' =
        st_records st
          ++ [LogRecord name
                (file +:+ " " +:+ pretty (f_lineno fr) +:+ ": " +:+ func
                   +:+ "("
                   +:+ (String.concat ", " sargs +:+ ", "
                          +:+ String.concat ", " items)
                   +:+ ") -> " +:+ sres) []].
Proof.
  intros Hkw H. unfold LogCall_log_f in H.
  destruct (LogCall_arglist P st args kw) as (sargs & items & Hargs & Hitems & Harg).
  rewrite Harg in H. clear Harg.
  destruct kw as [| kv kw']; [done |].
  simpl in H. unfold bind at 1 in H. unfold ret at 1 in H.
  unfold bind at 1 in H. unfold lift in H.
  destruct (relpath P (co_filename fr)) as [file | e] eqn:Hrel; [| discriminate].
  unfold bind at 1 in H. unfold get_name in H.
  destruct (fn_name fn) as [func |] eqn:Hname; [| discriminate].
  simpl in H. unfold bind at 1 in H.
  destruct (toShortStr_total P result 20 st) as [sres Hres]. rewrite Hres in H.
  unfold emit_debug in H. inversion H; subst st'; clear H.
  exists file, func, sargs, items, sres. by repeat split.
Qed.

Lemma LogCall_record_with_keywords_witness :
  ∃ file func sargs items sres,
    Forall2 (λ a s, toShortStr P0 a 20 empty_store = (Normal s, empty_store)) [] sargs
    ∧ Forall2 (λ kv item, ∃ sv, toShortStr P0 kv.2 20 empty_store
                                  = (Normal sv, empty_store)
                                ∧ item = kv.1 +:+ "=" +:+ sv)
        [("y", VInt 4)] items
    ∧ toShortStr P0 (VInt 7) 20 empty_store = (Normal sres, empty_store)
    ∧ fn_name compute = Some func
    ∧ relpath P0 (co_filename caller0) = Normal file
    ∧ st_records
        (LogCall_log_f P0 (VLogger "app") caller0 compute [] [("y", VInt 4)]
           (VInt 7) empty_store).2 =
        st_records empty_store
          ++ [LogRecord "app"
                (file +:+ " " +:+ pretty (f_lineno caller0) +:+ ": " +:+ func
                   +:+ "("
                   +:+ (String.concat ", " sargs +:+ ", "
                          +:+ String.concat ", " items)
                   +:+ ") -> " +:+ sres) []].
Proof.
  apply (LogCall_record_with_keywords P0 "app" caller0 compute []
           [("y", VInt 4)] (VInt 7) empty_store).
  - discriminate.
  - reflexivity.
Defined.

Example keywords_without_arguments :
  st_records
    (LogCall_log_f P0 (VLogger "app") caller0 compute [] [("y", VInt 4)]
       (VInt 7) empty_store).2
  = [LogRecord "app" "app.py 12: compute(, y=4) -> 7" []].
Proof. reflexivity. Qed.

(** ** The paired trace *)

Lemma trace_record_emits P tag key self name inst st d tnv tn a s :
  i_args self = Some d →
  d !! "tracename" = Some tnv →
  d !! "traceattr" = Some (VStr a) →
  py_str P tnv st = (Normal tn, st) →
  py_str P (default (VStr "") (lookup_attr P inst a st)) st = (Normal s, st) →
  trace_record P tag key self (VLogger name) inst st
  = emit_debug name (tag +:+ ": " +:+ tn +:+ ", traceattr: " +:+ s)
      [(key, tnv); ("traceattr", VStr s)] st.
Proof.
  intros Hargs Htn Hta Hstr Hattr. unfold trace_record. rewrite Hargs.
  assert (Hne : d ≠ ∅) by (intros ->; by rewrite lookup_empty in Htn).
  unfold haskey. rewrite (bool_decide_eq_false_2 _ Hne), Htn, Hta.
  rewrite !bool_decide_eq_true_2 by eauto. simpl andb. cbv iota.
  unfold subscript. rewrite Htn, Hta.
  unfold bind, lift, getattr_default, debug_method, ret.
  change (true && true) with true. cbv beta iota.
  by rewrite Hattr, Hstr.
Qed.

(** X6. When the policy has [tracename] and a string [traceattr], and the
    logger is a logger, [trace_in] and [trace_out] each emit one record
    that gives the trace name and the display string of the attribute as
    the instance shows it now: its own entry, else what its class
    provides, and its class itself for [__class__]. A value that shows no
    such attribute gives the empty string, not an error. *)
Theorem trace_shows_the_attribute_or_nothing P self name inst st d tnv tn a s :
  i_args self = Some d →
  d !! "tracename" = Some tnv →
  d !! "traceattr" = Some (VStr a) →
  py_str P tnv st = (Normal tn, st) →
  py_str P (default (VStr "") (lookup_attr P inst a st)) st = (Normal s, st) →
  trace_in P self (VLogger name) inst st
    = emit_debug name ("tracein: " +:+ tn +:+ ", traceattr: " +:+ s)
        [("trace_in", tnv); ("traceattr", VStr s)] st
  ∧ trace_out P self (VLogger name) inst st
    = emit_debug name ("traceout: " +:+ tn +:+ ", traceattr: " +:+ s)
        [("trace_out", tnv); ("traceattr", VStr s)] st.
Proof.
  intros Hargs Htn Hta Hstr Hattr. unfold trace_in, trace_out.
  split;
    rewrite (trace_record_emits P _ _ self name inst st d tnv tn a s
               Hargs Htn Hta Hstr Hattr);
    reflexivity.
Qed.

Lemma trace_shows_the_attribute_or_nothing_witness :
  trace_in P0 (LogCallBase traced) (VLogger "app.Worker") stranger store0
    = emit_debug "app.Worker" "tracein: job, traceattr: "
        [("trace_in", VStr "job"); ("traceattr", VStr "")] store0
  ∧ trace_out P0 (LogCallBase traced) (VLogger "app.Worker") stranger store0
    = emit_debug "app.Worker" "traceout: job, traceattr: "
        [("trace_out", VStr "job"); ("traceattr", VStr "")] store0.
Proof.
  apply (trace_shows_the_attribute_or_nothing P0 (LogCallBase traced) "app.Worker"
           stranger store0
           (<["traceattr" := VStr "state"]> {["tracename" := VStr "job"]})
           (VStr "job") "job" "state" "").
  - reflexivity.
  - reflexivity.
  - reflexivity.
  - reflexivity.
  - reflexivity.
Defined.

(** The attribute can be one the class provides, or [__class__]. *)
Example trace_of_the_class :
  trace_in P0
    (LogCallBase (Some (<["traceattr" := VStr "__class__"]>
                          {["tracename" := VStr "job"]})))
    (VLogger "app.Job") job store_job
  = emit_debug "app.Job" "tracein: job, traceattr: <class 'app.Job'>"
      [("trace_in", VStr "job"); ("traceattr", VStr "<class 'app.Job'>")] store_job.
Proof. reflexivity. Qed.

Example trace_of_a_class_attribute :
  (trace_in P0
     (LogCallBase (Some (<["traceattr" := VStr "kind"]>
                           {["tracename" := VStr "job"]})))
     (VLogger "app") (VObj (ClsId "app" "Job") 5)
     {| st_instances :=
          {[ 5%nat := {| inst_attrs := ∅; inst_str := None;
                         inst_class := λ name,
                           if bool_decide (name = "kind") then Some (VStr "batch")
                           else None |} ]};
        st_levels := ∅; st_records := [] |}).2.(st_records)
  = [LogRecord "app" "tracein: job, traceattr: batch"
       [("trace_in", VStr "job"); ("traceattr", VStr "batch")]].
Proof. reflexivity. Qed.

(** X7. When the entering trace raises an [Exception], the wrapped
    callable is not called at all: the locals become the sentinel and that
    exception whatever the callable is, and, with a hook that does not
    raise, the wrapper raises the trace's exception. *)
Theorem failing_entering_trace_skips_the_call P self fn caller lg args st e st1 :
  trace_in P self lg (default VNone (head args)) st = (Raise e, st1) →
  exc_is_Exception e = true →
  exc_truthy e = true →
  (∀ fr, caller = Some fr → quiet (log_f P self lg fr fn args [] (VStr "CRASHED"))) →
  (∀ fn', guarded_call P self fn' lg true args st
          = (Normal (VStr "CRASHED", Some e), st1))
  ∧ ∃ st2, logged_call P self fn caller lg true args st = (Raise e, st2).
Proof.
  intros Htrace He Ht Hhook.
  assert (Hcall : ∀ fn', guarded_call P self fn' lg true args st
                         = (Normal (VStr "CRASHED", Some e), st1)).
  { intros fn'. unfold guarded_call, try_except_Exception.
    rewrite (bind_raise _ _ _ _ _ Htrace). by rewrite He. }
  split; [exact Hcall |].
  unfold logged_call. rewrite (bind_normal _ _ _ _ _ (Hcall fn)). simpl.
  destruct (guarded_log_keeps_err P self fn caller lg args (VStr "CRASHED")
              (Some e) st1 Hhook) as (fl & st2 & ->).
  simpl. rewrite Ht. by eexists.
Qed.

Lemma failing_entering_trace_skips_the_call_witness :
  (∀ fn', guarded_call P0 (LogCallBase traced) fn' (VStr "console") true
            [misconfigured] store_misconfigured
          = (Normal (VStr "CRASHED", Some (builtin_exn "AttributeError" "debug")),
             store_misconfigured))
  ∧ ∃ st2, logged_call P0 (LogCallBase traced) advance (Some caller0)
             (VStr "console") true [misconfigured] store_misconfigured
           = (Raise (builtin_exn "AttributeError" "debug"), st2).
Proof.
  apply (failing_entering_trace_skips_the_call P0 (LogCallBase traced) advance
           (Some caller0) (VStr "console") [misconfigured] store_misconfigured
           (builtin_exn "AttributeError" "debug") store_misconfigured).
  - reflexivity.
  - reflexivity.
  - reflexivity.
  - intros fr _ st. by eexists _, _.
Defined.

Example misconfigured_logger_blocks_the_method :
  wrapped_f P0 (LogCallBase traced) advance (Some caller0) [misconfigured]
    store_misconfigured
  = (Raise (builtin_exn "AttributeError" "debug"), store_misconfigured).
Proof. reflexivity. Qed.

(** X8. Around a method call that returns, with the no-op hook: the
    entering trace is emitted before the callable runs and shows the
    attribute as it was, the leaving trace is emitted after it and shows
    the attribute as the callable left it, and the value is returned. *)
Theorem paired_trace_brackets_the_call
    P self fn caller obj rest st d tn a name s0 v st2 s1 :
  i_kind self = KBase →
  i_args self = Some d →
  d !! "tracename" = Some (VStr tn) →
  d !! "traceattr" = Some (VStr a) →
  lookup_attr P obj "logger" st = Some (VLogger name) →
  py_str P (default (VStr "") (lookup_attr P obj a st)) st = (Normal s0, st) →
  fn_body fn (obj :: rest) []
    (emit_debug name ("tracein: " +:+ tn +:+ ", traceattr: " +:+ s0)
       [("trace_in", VStr tn); ("traceattr", VStr s0)] st).2
    = (Normal v, st2) →
  py_str P (default (VStr "") (lookup_attr P obj a st2)) st2 = (Normal s1, st2) →
  wrapped_f P self fn caller (obj :: rest) st
  = (Normal v,
     (emit_debug name ("traceout: " +:+ tn +:+ ", traceattr: " +:+ s1)
        [("trace_out", VStr tn); ("traceattr", VStr s1)] st2).2).
Proof.
  intros Hk Hargs Htn Hta Hlg Hs0 Hfn Hs1.
  unfold wrapped_f. rewrite bind_resolve_logger_cons, Hlg. simpl fst. simpl snd.
  pose proof (trace_record_emits P "tracein" "trace_in" self name obj st d
                (VStr tn) tn a s0 Hargs Htn Hta eq_refl Hs0) as Hin.
  pose proof (trace_record_emits P "traceout" "trace_out" self name obj st2 d
                (VStr tn) tn a s1 Hargs Htn Hta eq_refl Hs1) as Hout.
  change ("tracein" +:+ ": " +:+ tn +:+ ", traceattr: " +:+ s0)
    with ("tracein: " +:+ tn +:+ ", traceattr: " +:+ s0) in Hin.
  change ("traceout" +:+ ": " +:+ tn +:+ ", traceattr: " +:+ s1)
    with ("traceout: " +:+ tn +:+ ", traceattr: " +:+ s1) in Hout.
  set (st1 := (emit_debug name ("tracein: " +:+ tn +:+ ", traceattr: " +:+ s0)
                 [("trace_in", VStr tn); ("traceattr", VStr s0)] st).2) in *.
  set (st3 := (emit_debug name ("traceout: " +:+ tn +:+ ", traceattr: " +:+ s1)
                 [("trace_out", VStr tn); ("traceattr", VStr s1)] st2).2).
  assert (Hcall : guarded_call P self fn (VLogger name) true (obj :: rest) st
                  = (Normal (v, None), st3)).
  { unfold guarded_call, try_except_Exception. simpl default.
    unfold trace_in, trace_out.
    assert (Hin' : trace_record P "tracein" "trace_in" self (VLogger name) obj st
                   = (Normal tt, st1)) by (rewrite Hin; reflexivity).
    assert (Hout' : trace_record P "traceout" "trace_out" self (VLogger name) obj st2
                    = (Normal tt, st3)) by (rewrite Hout; reflexivity).
    rewrite (bind_normal _ _ _ _ _ Hin').
    rewrite (bind_normal _ _ _ _ _ Hfn).
    by rewrite (bind_normal _ _ _ _ _ Hout'). }
  unfold logged_call. rewrite (bind_normal _ _ _ _ _ Hcall). simpl.
  destruct caller as [fr |].
  - unfold guarded_log, log_f. rewrite Hk. reflexivity.
  - reflexivity.
Qed.

Lemma paired_trace_brackets_the_call_witness :
  wrapped_f P0 (LogCallBase traced) advance (Some caller0) [job] store_job
  = (Normal (VInt 1),
     (emit_debug "app.Job" ("traceout: " +:+ "job" +:+ ", traceattr: " +:+ "done")
        [("trace_out", VStr "job"); ("traceattr", VStr "done")]
        (fn_body advance [job] []
           (emit_debug "app.Job" ("tracein: " +:+ "job" +:+ ", traceattr: " +:+ "new")
              [("trace_in", VStr "job"); ("traceattr", VStr "new")] store_job).2).2).2).
Proof.
  apply (paired_trace_brackets_the_call P0 (LogCallBase traced) advance
           (Some caller0) job [] store_job
           (<["traceattr" := VStr "state"]> {["tracename" := VStr "job"]})
           "job" "state" "app.Job" "new" (VInt 1)
           (fn_body advance [job] []
              (emit_debug "app.Job" ("tracein: " +:+ "job" +:+ ", traceattr: " +:+ "new")
                 [("trace_in", VStr "job"); ("traceattr", VStr "new")] store_job).2).2
           "done").
  - reflexivity.
  - reflexivity.
  - reflexivity.
  - reflexivity.
  - reflexivity.
  - reflexivity.
  - reflexivity.
  - vm_compute; reflexivity.
Defined.

Example trace_records_of_a_state_change :
  st_records
    (wrapped_f P0 (LogCallBase traced) advance (Some caller0) [job] store_job).2
  = [LogRecord "app.Job" "tracein: job, traceattr: new"
       [("trace_in", VStr "job"); ("traceattr", VStr "new")];
     LogRecord "app.Job" "traceout: job, traceattr: done"
       [("trace_out", VStr "job"); ("traceattr", VStr "done")]].
Proof. vm_compute; reflexivity. Qed.

(** ** The way out of the wrapper *)

(** X9. When the caller's frame cannot be captured the hook is not called
    and the failure is not raised: whatever the interceptor's hook, the
    wrapper does exactly what it does with the no-op hook and a frame. *)
Theorem without_a_frame_the_hook_is_not_called P k pol fn fr args st :
  wrapped_f P (Interceptor k pol) fn None args st
  = wrapped_f P (Interceptor KBase pol) fn (Some fr) args st.
Proof.
  unfold wrapped_f, bind.
  destruct (resolve_logger P fn args st) as [[[lg cf] | e] st0]; [| reflexivity].
  unfold logged_call, bind.
  rewrite (guarded_call_ignores_kind P k KBase).
  by destruct (guarded_call _ _ _ _ _ _ st0) as [[[result err] | e] st1].
Qed.

(** X10. An exception of the callable that is not an [Exception], such as
    [KeyboardInterrupt], leaves the wrapper at once: it is raised as it
    is, the store is the one the callable left, so no leaving trace and no
    call record are emitted. *)
Theorem exception_outside_Exception_passes_through
    P self fn caller args st lg (cf : bool) st1 e st2 :
  resolve_logger P fn args st = (Normal (lg, cf), st) →
  (if cf then trace_in P self lg (default VNone (head args)) else ret tt) st
    = (Normal tt, st1) →
  fn_body fn args [] st1 = (Raise e, st2) →
  exc_is_Exception e = false →
  wrapped_f P self fn caller args st = (Raise e, st2).
Proof.
  intros Hres Hin Hfn He.
  unfold wrapped_f. rewrite (bind_normal _ _ _ _ _ Hres). simpl.
  unfold logged_call, guarded_call, try_except_Exception, bind.
  by rewrite Hin, Hfn, He.
Qed.

Lemma exception_outside_Exception_passes_through_witness :
  wrapped_f P0 (LogCall None) interrupted (Some caller0) [VInt 1] empty_store
  = (Raise KeyboardInterrupt, empty_store).
Proof.
  apply (exception_outside_Exception_passes_through P0 (LogCall None) interrupted
           (Some caller0) [VInt 1] empty_store (getLogger "app.function") true
           empty_store KeyboardInterrupt empty_store).
  - reflexivity.
  - reflexivity.
  - reflexivity.
  - reflexivity.
Defined.

(** X11. An exception of the hook that is not an [Exception] never leaves
    the wrapper: the [finally] clause returns the result, or raises the
    callable's own exception, as if the hook had returned. *)
Theorem interrupt_inside_the_hook_is_dropped
    P self fn fr lg cf args st result err st1 e st2 :
  guarded_call P self fn lg cf args st = (Normal (result, err), st1) →
  log_f P self lg fr fn args [] result st1 = (Raise e, st2) →
  exc_is_Exception e = false →
  logged_call P self fn (Some fr) lg cf args st
  = (match err with
     | Some e0 => if exc_truthy e0 then Raise e0 else Normal result
     | None => Normal result
     end, st2).
Proof.
  intros Hcall Hhook He.
  unfold logged_call. rewrite (bind_normal _ _ _ _ _ Hcall). simpl.
  unfold guarded_log. simpl. rewrite Hhook, He. simpl.
  unfold finally_clause, raise, ret.
  destruct err as [e0 |]; [by destruct (exc_truthy e0) | done].
Qed.

Lemma interrupt_inside_the_hook_is_dropped_witness :
  logged_call P0 (Interceptor (KCustom interrupted_hook) (Some ∅)) compute
    (Some caller0) (getLogger "app.function") true [VInt 3; VInt 4] empty_store
  = (Normal (VInt 7), empty_store).
Proof.
  apply (interrupt_inside_the_hook_is_dropped P0
           (Interceptor (KCustom interrupted_hook) (Some ∅)) compute caller0
           (getLogger "app.function") true [VInt 3; VInt 4] empty_store
           (VInt 7) None empty_store KeyboardInterrupt empty_store).
  - reflexivity.
  - reflexivity.
  - reflexivity.
Defined.

(** X12. [LogCallBase] without a paired trace adds nothing to what the
    callable does: the store is the one the callable leaves, a returned
    value is returned, and a raised exception is raised again, except an
    [Exception] that is falsy, for which the sentinel is returned. *)
Theorem LogCallBase_without_trace_is_silent P pol fn caller args st lg cf c st2 :
  haskey pol "tracename" && haskey pol "traceattr" = false →
  resolve_logger P fn args st = (Normal (lg, cf), st) →
  fn_body fn args [] st = (c, st2) →
  wrapped_f P (Interceptor KBase pol) fn caller args st
  = (match c with
     | Normal v => Normal v
     | Raise e =>
         if exc_is_Exception e && negb (exc_truthy e)
         then Normal (VStr "CRASHED") else Raise e
     end, st2).
Proof.
  intros Hpair Hres Hfn.
  unfold wrapped_f. rewrite (bind_normal _ _ _ _ _ Hres). simpl.
  unfold logged_call, guarded_call, try_except_Exception.
  unfold trace_in, trace_out, trace_record. simpl i_args. rewrite Hpair.
  assert (Hnop : ∀ s, (if cf then ret tt else ret tt) s = (Normal tt, s))
    by (intros s; by destruct cf).
  unfold bind. rewrite Hnop, Hfn.
  destruct c as [v | e].
  - rewrite Hnop. simpl. by destruct caller.
  - destruct (exc_is_Exception e); simpl; [| reflexivity].
    destruct caller; simpl; by destruct (exc_truthy e).
Qed.

Lemma LogCallBase_without_trace_is_silent_witness :
  wrapped_f P0 (Interceptor KBase (Some ∅)) compute (Some caller0)
    [VInt 1; VInt 0] empty_store
  = (Raise ValueError_bad, empty_store).
Proof.
  apply (LogCallBase_without_trace_is_silent P0 (Some ∅) compute (Some caller0)
           [VInt 1; VInt 0] empty_store (getLogger "app.function") true
           (Raise ValueError_bad) empty_store).
  - reflexivity.
  - reflexivity.
  - reflexivity.
Defined.

(** ** What a decoration changes *)

Lemma class_setattr_touches ct klas key m :
  touches_only_dict_of klas ct (class_setattr ct klas key m).
Proof.
  unfold class_setattr. split.
  - intros k Hk. destruct (ct !! klas); [| done]. by rewrite lookup_insert_ne.
  - intros c Hc. rewrite Hc. eexists. rewrite lookup_insert_eq.
    split; [done |]. by repeat split.
Qed.

Lemma touches_only_refl klas ct : touches_only_dict_of klas ct ct.
Proof.
  split; [done |]. intros c Hc. exists c. split; [done |]. by repeat split.
Qed.

Lemma touches_only_trans klas ct1 ct2 ct3 :
  touches_only_dict_of klas ct1 ct2 →
  touches_only_dict_of klas ct2 ct3 →
  touches_only_dict_of klas ct1 ct3.
Proof.
  intros [Ho1 Hk1] [Ho2 Hk2]. split.
  - intros k Hk. by rewrite Ho2, Ho1.
  - intros c Hc. destruct (Hk1 c Hc) as (c2 & Hc2 & H12 & H12' & H12'' & H12''').
    destruct (Hk2 c2 Hc2) as (c3 & Hc3 & H23 & H23' & H23'' & H23''').
    exists c3. split; [done |]. repeat split; congruence.
Qed.

Lemma subdecorate_step_touches P klas ct e :
  touches_only_dict_of klas ct (subdecorate_step P klas ct e).
Proof.
  unfold subdecorate_step.
  destruct (member_subdecorate e.2); [| apply touches_only_refl].
  destruct (class_getattr ct klas e.1); [| apply touches_only_refl].
  destruct (negb _); [apply class_setattr_touches | apply touches_only_refl].
Qed.

Lemma scan_touches P klas es : ∀ ct,
  touches_only_dict_of klas ct (foldl (subdecorate_step P klas) ct es).
Proof.
  induction es as [| e es IH]; intros ct; simpl.
  - apply touches_only_refl.
  - eapply touches_only_trans; [apply subdecorate_step_touches | apply IH].
Qed.

(** Attribute lookups that do not read the field a decoration changed. *)
Lemma mro_find_insert {A} (ct : classtable) klas c c' (f : class → option A) mro :
  ct !! klas = Some c → f c' = f c →
  mro_find (<[klas := c']> ct) f mro = mro_find ct f mro.
Proof.
  intros Hc Hf. induction mro as [| k mro IH]; simpl; [done |].
  destruct (decide (k = klas)) as [-> | Hne].
  - rewrite lookup_insert_eq, Hc. simpl. by rewrite Hf, IH.
  - by rewrite lookup_insert_ne, IH.
Qed.

(** The class a decoration leaves behind. *)
Lemma LogClass_call_result P args klas ct ct' c :
  ct !! klas = Some c →
  LogClass_call P args klas ct = Normal ct' →
  ∃ parent c',
    c_mro c !! 1%nat = Some parent
    ∧ ct' !! klas = Some c'
    ∧ c_id c' = c_id c
    ∧ c_mro c' = c_mro c
    ∧ c_loghook c' = Some (effective_policy ct args parent)
    ∧ c_subdecorate c'
      = (if keyIsTrue args "subdecorate" then Some args else c_subdecorate c)
    ∧ dict_get (c_dict c') "__init__"
      = Some (MInit (effective_policy ct args parent)
                (class_getattr ct klas "__init__"))
    ∧ ∀ k, k ≠ klas → ct' !! k = ct !! k.
Proof.
  intros Hc H. unfold LogClass_call in H. rewrite Hc in H.
  destruct (c_mro c !! 1%nat) as [parent |] eqn:Hp; [| discriminate].
  set (c1 := {| c_id := c_id c; c_mro := c_mro c; c_dict := c_dict c;
                c_loghook := c_loghook c;
                c_subdecorate := if keyIsTrue args "subdecorate" then Some args
                                 else c_subdecorate c |}) in H.
  set (ct1 := <[klas := c1]> ct) in H.
  assert (Hlh : class_loghook ct1 parent = class_loghook ct parent).
  { unfold class_loghook, class_mro, ct1.
    destruct (decide (parent = klas)) as [-> | Hne].
    - rewrite lookup_insert_eq, Hc. simpl. by apply (mro_find_insert ct klas c c1).
    - rewrite lookup_insert_ne by done. by apply (mro_find_insert ct klas c c1). }
  rewrite Hlh in H. fold (effective_policy ct args parent) in H.
  set (ct2 := match class_subdecorate ct1 parent with
              | Some _ => _
              | None => ct1
              end) in H.
  assert (H12 : touches_only_dict_of klas ct1 ct2).
  { unfold ct2. destruct (class_subdecorate ct1 parent);
      [apply scan_touches | apply touches_only_refl]. }
  destruct H12 as [Hother Hklas].
  destruct (Hklas c1) as (c2 & Hc2 & Hid & Hmro & Hlog & Hsub).
  { unfold ct1. by rewrite lookup_insert_eq. }
  unfold class_setattr in H. rewrite Hc2, lookup_insert_eq in H.
  inversion H; subst ct'; clear H.
  exists parent. eexists. rewrite lookup_insert_eq.
  split; [done |]. split; [done |]. simpl.
  split; [by rewrite Hid |]. split; [by rewrite Hmro |].
  split; [done |]. split; [by rewrite Hsub |].
  split; [apply dict_get_set_eq |].
  intros k Hk. rewrite !lookup_insert_ne by done.
  rewrite Hother by done. unfold ct1. by rewrite lookup_insert_ne.
Qed.

(** X13. A decoration that goes through changes the decorated class only:
    every other class, its parent included, is left as it was, and the
    decorated class keeps its identity and its MRO. *)
Theorem LogClass_changes_the_decorated_class_only P args klas ct ct' c :
  ct !! klas = Some c →
  LogClass_call P args klas ct = Normal ct' →
  (∀ k, k ≠ klas → ct' !! k = ct !! k)
  ∧ ∃ c', ct' !! klas = Some c' ∧ c_id c' = c_id c ∧ c_mro c' = c_mro c.
Proof.
  intros Hc H.
  destruct (LogClass_call_result P args klas ct ct' c Hc H)
    as (parent & c' & _ & Hc' & Hid & Hmro & _ & _ & _ & Hother).
  split; [exact Hother |]. by exists c'.
Qed.

Lemma LogClass_changes_the_decorated_class_only_witness :
  (∀ k, k ≠ "Derived" →
        decorate_both inherit_on inherit_on !! k = decorate_base inherit_on !! k)
  ∧ ∃ c', decorate_both inherit_on inherit_on !! "Derived" = Some c'
          ∧ c_id c' = c_id Derived_class ∧ c_mro c' = c_mro Derived_class.
Proof.
  apply (LogClass_changes_the_decorated_class_only P0 inherit_on "Derived"
           (decorate_base inherit_on) (decorate_both inherit_on inherit_on)
           Derived_class).
  - vm_compute; reflexivity.
  - vm_compute; reflexivity.
Defined.

Lemma keyIsTrue_of_falsy args key : policy_falsy args = true → keyIsTrue args key = false.
Proof.
  destruct args as [d |]; [| done]. simpl. intros H. by rewrite H.
Qed.

(** X14. A class decorated without a policy ([None] or the empty
    dictionary) under a parent that was decorated takes over the parent's
    policy: its installed constructor closes over it, together with the
    constructor the class had, and it is what [__loghook__] records. The
    class is not marked with [__subdecorate__], even when the policy taken
    over asks for it. *)
Theorem decoration_without_policy_takes_the_parents
    P args klas ct ct' c parent parent_args :
  ct !! klas = Some c →
  c_mro c !! 1%nat = Some parent →
  policy_falsy args = true →
  class_loghook ct parent = Some parent_args →
  LogClass_call P args klas ct = Normal ct' →
  ∃ c', ct' !! klas = Some c'
        ∧ c_loghook c' = Some parent_args
        ∧ dict_get (c_dict c') "__init__"
          = Some (MInit parent_args (class_getattr ct klas "__init__"))
        ∧ c_subdecorate c' = c_subdecorate c.
Proof.
  intros Hc Hp Hfalsy Hlh H.
  destruct (LogClass_call_result P args klas ct ct' c Hc H)
    as (parent' & c' & Hp' & Hc' & _ & _ & Hlog & Hsub & Hinit & _).
  rewrite Hp in Hp'. inversion Hp'; subst parent'.
  unfold effective_policy in *. rewrite Hlh, Hfalsy in *.
  rewrite (keyIsTrue_of_falsy args _ Hfalsy) in Hsub.
  by exists c'.
Qed.

Lemma decoration_without_policy_takes_the_parents_witness :
  ∃ c', decorate_both leveled None !! "Derived" = Some c'
        ∧ c_loghook c' = Some leveled
        ∧ dict_get (c_dict c') "__init__"
          = Some (MInit leveled (class_getattr (decorate_base leveled) "Derived" "__init__"))
        ∧ c_subdecorate c' = c_subdecorate Derived_class.
Proof.
  apply (decoration_without_policy_takes_the_parents P0 None "Derived"
           (decorate_base leveled) (decorate_both leveled None) Derived_class
           "Base" leveled).
  - vm_compute; reflexivity.
  - reflexivity.
  - reflexivity.
  - vm_compute; reflexivity.
  - vm_compute; reflexivity.
Defined.

(** ** Which members a decoration wraps *)

Lemma marked_table_heads args klas ct :
  heads_own_mro ct klas → heads_own_mro (marked_table args klas ct) klas.
Proof.
  intros (c & rest & Hc & Hmro). unfold marked_table. rewrite Hc.
  eexists _, rest. rewrite lookup_insert_eq. by split.
Qed.

Lemma marked_table_own args klas ct m :
  own_member (marked_table args klas ct) klas m = own_member ct klas m.
Proof.
  unfold marked_table, own_member.
  destruct (ct !! klas) as [c |] eqn:Hc; [| by rewrite Hc].
  by rewrite lookup_insert_eq.
Qed.


(** Outside [__init__], the dictionary of the decorated class is the one
    the loop leaves. *)
Lemma LogClass_call_members P args klas ct ct' :
  heads_own_mro ct klas →
  LogClass_call P args klas ct = Normal ct' →
  ∃ c parent,
    ct !! klas = Some c ∧ c_mro c !! 1%nat = Some parent
    ∧ heads_own_mro ct' klas
    ∧ ∀ m, m ≠ "__init__" →
           own_member ct' klas m
           = own_member (scanned_table P args klas parent ct) klas m.
Proof.
  intros Hh H. pose proof Hh as (c & rest & Hc & Hmro).
  assert (Hh2 : ∀ parent,
            heads_own_mro (scanned_table P args klas parent ct) klas).
  { intros parent. unfold scanned_table. cbv zeta.
    pose proof (marked_table_heads args klas ct Hh) as Hh1.
    destruct (class_subdecorate (marked_table args klas ct) parent); [| done].
    generalize (default [] (c_dict <$> marked_table args klas ct !! parent)).
    intros es. revert Hh1. generalize (marked_table args klas ct).
    induction es as [| e es IH]; intros ct0 H0; simpl; [done |].
    apply IH. by apply subdecorate_step_heads. }
  unfold LogClass_call in H. rewrite Hc in H.
  destruct (c_mro c !! 1%nat) as [parent |] eqn:Hp; [| discriminate].
  exists c, parent. split; [done |]. split; [done |].
  specialize (Hh2 parent).
  unfold scanned_table, marked_table in Hh2 |- *. rewrite Hc in Hh2 |- *.
  lazy zeta in Hh2 |- *.
  set (ct2 := match class_subdecorate _ parent with
              | Some _ => _
              | None => _
              end) in H, Hh2 |- *.
  set (ct3 := class_setattr ct2 klas "__init__" _) in H.
  assert (Hh3 : heads_own_mro ct3 klas) by by apply class_setattr_heads.
  assert (Ho3 : ∀ m, m ≠ "__init__" → own_member ct3 klas m = own_member ct2 klas m).
  { intros m Hm. unfold ct3. rewrite class_setattr_own by done.
    by rewrite bool_decide_eq_false_2. }
  destruct Hh3 as (c3 & rest3 & Hc3 & Hmro3). rewrite Hc3 in H.
  inversion H; subst ct'; clear H. split.
  - eexists _, rest3. rewrite lookup_insert_eq. by split.
  - intros m Hm. rewrite <- (Ho3 m Hm). unfold own_member.
    rewrite lookup_insert_eq, Hc3. reflexivity.
Qed.

(** X15. A member of the decorated class that is already wrapped is left
    as it is: the decoration never wraps a wrapper again. *)
Theorem LogClass_never_wraps_twice P args klas ct ct' m own :
  heads_own_mro ct klas →
  own_member ct klas m = Some own →
  member_loghook own = true →
  m ≠ "__init__" →
  LogClass_call P args klas ct = Normal ct' →
  class_getattr ct' klas m = Some own.
Proof.
  intros Hh Hown Hhooked Hm H.
  destruct (LogClass_call_members P args klas ct ct' Hh H)
    as (c & parent & Hc & Hp & Hh' & Hmembers).
  apply class_getattr_own; [done |]. rewrite (Hmembers m Hm).
  unfold scanned_table. cbv zeta.
  pose proof (marked_table_heads args klas ct Hh) as Hh1.
  assert (Ho1 : own_member (marked_table args klas ct) klas m = Some own)
    by by rewrite marked_table_own.
  destruct (class_subdecorate (marked_table args klas ct) parent); [| done].
  by apply scan_keeps_wrapped.
Qed.

Lemma LogClass_never_wraps_twice_witness :
  class_getattr
    (decorated (LogClass_call P0 None "S" (with_T_decorated T_class S_class_wrapped)))
    "S" "m"
  = Some (MWrapped (hook (LogCall None) m_of_S)).
Proof.
  apply (LogClass_never_wraps_twice P0 None "S"
           (with_T_decorated T_class S_class_wrapped)
           (decorated (LogClass_call P0 None "S"
                         (with_T_decorated T_class S_class_wrapped)))
           "m" (MWrapped (hook (LogCall None) m_of_S))).
  - exists S_class_wrapped, ["T"; "object"]. split; vm_compute; reflexivity.
  - vm_compute; reflexivity.
  - reflexivity.
  - discriminate.
  - vm_compute; reflexivity.
Defined.




Example unmarked_parent_method_is_not_passed_on :
  own_member
    (decorated (LogClass_call P0 None "S" (with_T_decorated T_class_unmarked S_class)))
    "S" "m"
  = Some (MFunc m_of_S).
Proof. vm_compute; reflexivity. Qed.




Example the_class_in_between_is_not_marked_itself :
  c_subdecorate <$> chain_Mid_decorated !! "Mid" = Some None
  ∧ c_subdecorate <$> chain_Mid_decorated !! "Top" = Some (Some subdecorate_on).
Proof. split; vm_compute; reflexivity. Qed.

(** ** Constructing instances *)

(** X18. A constructor installed by [LogClass], run on an instance that
    already shows a truthy [logger], raises whatever the policy is:
    [KeyError] when the policy is a dictionary without [inherit_logger],
    [TypeError] when it is [None] or a dictionary with [inherit_logger].
    The store is left as it was and the original constructor is not
    called. *)
Theorem installed_constructor_rejects_a_bound_logger
    P self_args caller obj rest kw st v :
  lookup_attr P obj "logger" st = Some v →
  truthy v = true →
  ∃ e, (∀ original_init,
          run_member P (MInit self_args original_init) caller (obj :: rest) kw st
          = (Raise e, st))
       ∧ exc_type e
         = match self_args with
           | Some d => if bool_decide (is_Some (d !! "inherit_logger"))
                       then "TypeError" else "KeyError"
           | None => "TypeError"
           end.
Proof.
  intros Hv Ht.
  destruct (init_logger_bound P self_args obj st v Hv Ht) as (e & He & Hty).
  exists e. split; [| exact Hty].
  intros o. simpl run_member. by rewrite (bind_raise _ _ _ _ _ He).
Qed.

Lemma installed_constructor_rejects_a_bound_logger_witness :
  ∃ e, (∀ original_init,
          run_member P0 (MInit subdecorate_on original_init) (Some caller0)
            [worker] [] store0 = (Raise e, store0))
       ∧ exc_type e = "KeyError".
Proof.
  apply (installed_constructor_rejects_a_bound_logger P0 subdecorate_on
           (Some caller0) worker [] [] store0 (VLogger "app.Worker")).
  - reflexivity.
  - reflexivity.
Defined.

Example bound_logger_with_inherit_logger_set :
  (run_member P0 (MInit inherit_on None) (Some caller0) [worker] [] store0).1
  = Raise (builtin_exn "TypeError"
             "keyIsTrue() missing 1 required positional argument: 'key'").
Proof. reflexivity. Qed.

(** An attribute [logger] of the class counts as well. *)
Example class_level_logger_is_found :
  (construct P0
     (decorated
        (LogClass_call P0 None "Base"
           (<["Base" := Base_with_logger]> {["object" := object_class]})))
     "Base" (Some caller0) [] [] empty_store).1
  = Raise (builtin_exn "TypeError" "'NoneType' object is not subscriptable").
Proof. vm_compute; reflexivity. Qed.

(** What [construct] does with a class whose [__init__] is an installed
    constructor, when the class provides no truthy [logger]: it binds the
    logger on the new instance, checks the level, and goes on with the
    original constructor, whose value it drops. *)
Lemma construct_installed P ct klas c self_args original_init caller args kw st :
  ct !! klas = Some c →
  class_getattr ct klas "__init__" = Some (MInit self_args original_init) →
  (∀ v, class_view P ct klas "logger" = Some v → truthy v = false) →
  ∃ st0,
    lookup_attr P (VObj (c_id c) (fresh (dom (st_instances st)))) "logger" st0
      = Some (getLogger (cls_module (c_id c) +:+ "." +:+ cls_name (c_id c)))
    ∧ st_records st0 = st_records st
    ∧ st_levels st0 = st_levels st
    ∧ construct P ct klas caller args kw st
      = let instance := VObj (c_id c) (fresh (dom (st_instances st))) in
        let original st1 :=
          match original_init with
          | Some m' =>
              (run_member P m' (Some (init_frame P)) (instance :: args) kw ;;;
               ret instance) st1
          | None => (Normal instance, st1)
          end in
        match self_args ≫= (.!! "level") with
        | None => original st0
        | Some level =>
            match (checkLevel P level st0).1 with
            | Normal rv =>
                original
                  {| st_instances := st_instances st0;
                     st_levels :=
                       <[cls_module (c_id c) +:+ "." +:+ cls_name (c_id c) := rv]>
                         (st_levels st0);
                     st_records := st_records st0 |}
            | Raise e => (Raise e, st0)
            end
        end.
Proof.
  intros Hc Hinit Hview.
  set (r := fresh (dom (st_instances st))).
  set (stn := {| st_instances :=
                   <[r := {| inst_attrs := ∅; inst_str := None;
                             inst_class := class_view P ct klas |}]>
                     (st_instances st);
                 st_levels := st_levels st; st_records := st_records st |}).
  destruct (init_logger_unbound P self_args (c_id c) r stn)
    as (st0 & Hlg & Hrec & Hlev & Hil).
  { intros v Hv. apply Hview. unfold lookup_attr in Hv.
    rewrite bool_decide_eq_false_2 in Hv by done.
    simpl in Hv. unfold get_instance in Hv. simpl in Hv.
    rewrite lookup_insert_eq in Hv. simpl in Hv.
    by rewrite lookup_empty in Hv. }
  exists st0. split; [exact Hlg |]. split; [exact Hrec |]. split; [exact Hlev |].
  unfold construct. rewrite Hc, Hinit. fold r. fold stn. cbv zeta.
  simpl run_member. rewrite bind_assoc. unfold bind at 1. rewrite Hil.
  assert (Hgo : ∀ st1,
    bind (match original_init with
          | Some m' =>
              run_member P m' (Some (init_frame P)) (VObj (c_id c) r :: args) kw ;;;
              ret VNone
          | None => ret VNone
          end)
         (λ r0 : pyval,
            match r0 with
            | VNone => ret (VObj (c_id c) r)
            | _ => raise (builtin_exn "TypeError" "__init__() should return None")
            end) st1
    = match original_init with
      | Some m' =>
          (run_member P m' (Some (init_frame P)) (VObj (c_id c) r :: args) kw ;;;
           ret (VObj (c_id c) r)) st1
      | None => (Normal (VObj (c_id c) r), st1)
      end).
  { intros st1. destruct original_init as [m' |]; [| reflexivity].
    unfold bind.
    by destruct (run_member P m' (Some (init_frame P)) (VObj (c_id c) r :: args)
                   kw st1) as [[x | e] st2]. }
  destruct (self_args ≫= (.!! "level")) as [level |].
  - unfold getLogger. rewrite setLevel_logger.
    destruct (checkLevel P level st0).1 as [rv | e]; [| reflexivity].
    apply Hgo.
  - apply Hgo.
Qed.

(** When the class itself provides a truthy [logger], line 203 is
    reached on the new instance at once. *)
Lemma construct_installed_bound
    P ct klas c self_args original_init caller args kw st v :
  ct !! klas = Some c →
  class_getattr ct klas "__init__" = Some (MInit self_args original_init) →
  class_view P ct klas "logger" = Some v →
  truthy v = true →
  ∃ e st', construct P ct klas caller args kw st = (Raise e, st')
           ∧ exc_type e = line_203_error self_args.
Proof.
  intros Hc Hinit Hv Ht.
  set (r := fresh (dom (st_instances st))).
  set (stn := {| st_instances :=
                   <[r := {| inst_attrs := ∅; inst_str := None;
                             inst_class := class_view P ct klas |}]>
                     (st_instances st);
                 st_levels := st_levels st; st_records := st_records st |}).
  assert (Hlg : lookup_attr P (VObj (c_id c) r) "logger" stn = Some v).
  { unfold lookup_attr. rewrite bool_decide_eq_false_2 by done.
    simpl. unfold get_instance. simpl. rewrite lookup_insert_eq. simpl.
    by rewrite lookup_empty. }
  destruct (init_logger_bound P self_args (VObj (c_id c) r) stn v Hlg Ht)
    as (e & He & Hty).
  exists e, stn. split; [| exact Hty].
  unfold construct. rewrite Hc, Hinit. fold r. fold stn. cbv zeta.
  simpl run_member. rewrite bind_assoc. by rewrite (bind_raise _ _ _ _ _ He).
Qed.

Lemma logger_view_cases P ct klas :
  (∀ v, class_view P ct klas "logger" = Some v → truthy v = false)
  ∨ (∃ v, class_view P ct klas "logger" = Some v ∧ truthy v = true).
Proof.
  destruct (class_view P ct klas "logger") as [v |]; [| by left].
  destruct (truthy v) eqn:Ht.
  - right. by exists v.
  - left. by intros v' [= <-].
Qed.

(** The constructor a decoration installs, as instances find it. *)
Lemma installed_init P args klas ct ct' c parent rest :
  ct !! klas = Some c →
  c_mro c = klas :: parent :: rest →
  LogClass_call P args klas ct = Normal ct' →
  ∃ c', ct' !! klas = Some c'
        ∧ c_id c' = c_id c
        ∧ class_getattr ct' klas "__init__"
          = Some (MInit (effective_policy ct args parent)
                    (class_getattr ct klas "__init__")).
Proof.
  intros Hc Hmro H.
  destruct (LogClass_call_result P args klas ct ct' c Hc H)
    as (parent' & c' & Hp & Hc' & Hid & Hmro' & _ & _ & Hinit & _).
  rewrite Hmro in Hp. inversion Hp; subst parent'.
  exists c'. split; [done |]. split; [done |].
  apply class_getattr_own.
  - exists c', (parent :: rest). split; [done |]. by rewrite Hmro'.
  - unfold own_member. by rewrite Hc'.
Qed.

Lemma constructing_instance_steps
    P args klas ct ct' c parent rest caller argv kw st :
  ct !! klas = Some c →
  c_mro c = klas :: parent :: rest →
  LogClass_call P args klas ct = Normal ct' →
  (∀ v, class_view P ct' klas "logger" = Some v → truthy v = false) →
  ∃ st0,
    st_instances st !! fresh (dom (st_instances st)) = None
    ∧ lookup_attr P (VObj (c_id c) (fresh (dom (st_instances st)))) "logger" st0
      = Some (getLogger (cls_module (c_id c) +:+ "." +:+ cls_name (c_id c)))
    ∧ st_records st0 = st_records st
    ∧ st_levels st0 = st_levels st
    ∧ construct P ct' klas caller argv kw st
      = let instance := VObj (c_id c) (fresh (dom (st_instances st))) in
        let original st1 :=
          match class_getattr ct klas "__init__" with
          | Some m' =>
              (run_member P m' (Some (init_frame P)) (instance :: argv) kw ;;;
               ret instance) st1
          | None => (Normal instance, st1)
          end in
        match effective_policy ct args parent ≫= (.!! "level") with
        | None => original st0
        | Some level =>
            match (checkLevel P level st0).1 with
            | Normal rv =>
                original
                  {| st_instances := st_instances st0;
                     st_levels :=
                       <[cls_module (c_id c) +:+ "." +:+ cls_name (c_id c) := rv]>
                         (st_levels st0);
                     st_records := st_records st0 |}
            | Raise e => (Raise e, st0)
            end
        end.
Proof.
  intros Hc Hmro H Hview.
  destruct (installed_init P args klas ct ct' c parent rest Hc Hmro H)
    as (c' & Hc' & Hid & Hget).
  destruct (construct_installed P ct' klas c' _ _ caller argv kw st Hc' Hget Hview)
    as (st0 & Hlg & Hrec & Hlev & Hcons).
  exists st0. rewrite Hid in *.
  split; [| by repeat split].
  apply not_elem_of_dom. apply is_fresh.
Qed.

(** X19. Constructing an instance of a class that [LogClass] decorated,
    when the class provides no truthy [logger] of its own: the new
    instance first gets the logger named after the class, module and name,
    without any record being emitted. When the policy in force has a
    [level], a level that [logging] accepts is set on that logger, and one
    it refuses ends the construction with the error of [setLevel]. With no
    level or an accepted one, the constructor the class had before the
    decoration runs next, called from the frame of [log.py], and its value
    is dropped. *)
Theorem constructing_an_instance_of_a_decorated_class
    P args klas ct ct' c parent rest caller argv kw st :
  ct !! klas = Some c →
  c_mro c = klas :: parent :: rest →
  LogClass_call P args klas ct = Normal ct' →
  (∀ v, class_view P ct' klas "logger" = Some v → truthy v = false) →
  ∃ st0,
    st_instances st !! fresh (dom (st_instances st)) = None
    ∧ lookup_attr P (VObj (c_id c) (fresh (dom (st_instances st)))) "logger" st0
      = Some (getLogger (cls_module (c_id c) +:+ "." +:+ cls_name (c_id c)))
    ∧ st_records st0 = st_records st
    ∧ st_levels st0 = st_levels st
    ∧ construct P ct' klas caller argv kw st
      = let instance := VObj (c_id c) (fresh (dom (st_instances st))) in
        let original st1 :=
          match class_getattr ct klas "__init__" with
          | Some m' =>
              (run_member P m' (Some (init_frame P)) (instance :: argv) kw ;;;
               ret instance) st1
          | None => (Normal instance, st1)
          end in
        match effective_policy ct args parent ≫= (.!! "level") with
        | None => original st0
        | Some level =>
            match (checkLevel P level st0).1 with
            | Normal rv =>
                original
                  {| st_instances := st_instances st0;
                     st_levels :=
                       <[cls_module (c_id c) +:+ "." +:+ cls_name (c_id c) := rv]>
                         (st_levels st0);
                     st_records := st_records st0 |}
            | Raise e => (Raise e, st0)
            end
        end.
Proof.
  intros Hc Hmro H Hview.
  exact (constructing_instance_steps P args klas ct ct' c parent rest caller argv
           kw st Hc Hmro H Hview).
Qed.

Lemma constructing_an_instance_of_a_decorated_class_witness :
  ∃ st0,
    st_instances empty_store !! fresh (dom (st_instances empty_store)) = None
    ∧ lookup_attr P0
        (VObj (c_id Base_class) (fresh (dom (st_instances empty_store))))
        "logger" st0
      = Some (getLogger "app.Base")
    ∧ st_records st0 = st_records empty_store
    ∧ st_levels st0 = st_levels empty_store
    ∧ construct P0 (decorate_base leveled) "Base" (Some caller0) [] [] empty_store
      = (run_member P0 (MFunc object_init) (Some (init_frame P0))
           [VObj (c_id Base_class) (fresh (dom (st_instances empty_store)))] [] ;;;
         ret (VObj (c_id Base_class) (fresh (dom (st_instances empty_store)))))%py
          {| st_instances := st_instances st0;
             st_levels := <["app.Base" := VInt 10]> (st_levels st0);
             st_records := st_records st0 |}.
Proof.
  apply (constructing_an_instance_of_a_decorated_class P0 leveled "Base"
           hierarchy0 (decorate_base leveled) Base_class "object" []
           (Some caller0) [] [] empty_store).
  - vm_compute; reflexivity.
  - reflexivity.
  - vm_compute; reflexivity.
  - intros v Hv. vm_compute in Hv. discriminate Hv.
Defined.

Example a_decorated_class_is_constructed :
  let made := construct P0 (decorate_base leveled) "Base" (Some caller0) [] []
                empty_store in
  made.1 = Normal (VObj (ClsId "app" "Base") 0)
  ∧ lookup_attr P0 (VObj (ClsId "app" "Base") 0) "logger" made.2
    = Some (VLogger "app.Base")
  ∧ st_levels made.2 !! "app.Base" = Some (VInt 10).
Proof. repeat split; vm_compute; reflexivity. Qed.

Example a_refused_level_ends_the_construction :
  (construct P0 (decorate_base (Some {["level" := VStr "bogus"]})) "Base"
     (Some caller0) [] [] empty_store).1
  = Raise (builtin_exn "ValueError" "Unknown level: 'bogus'").
Proof. vm_compute; reflexivity. Qed.

(** X20. A decorated class that has no constructor of its own, under a
    parent that carries an installed constructor, cannot be instantiated:
    whatever the two policies and the arguments, construction raises. When
    the class provides no truthy [logger] and the policy in force has no
    level or one that [logging] accepts, the error is the one of line 203
    in the parent's installed constructor, which runs second and finds the
    logger the first one bound: [KeyError] when the parent's policy is a
    dictionary without [inherit_logger], [TypeError] otherwise. *)
Theorem decorated_subclass_cannot_be_constructed
    P args klas parent ct ct' c rest cp parent_args parent_init caller argv kw st :
  ct !! klas = Some c →
  c_mro c = klas :: parent :: rest →
  dict_get (c_dict c) "__init__" = None →
  ct !! parent = Some cp →
  dict_get (c_dict cp) "__init__" = Some (MInit parent_args parent_init) →
  LogClass_call P args klas ct = Normal ct' →
  ∃ e st',
    construct P ct' klas caller argv kw st = (Raise e, st')
    ∧ ((∀ v, class_view P ct' klas "logger" = Some v → truthy v = false) →
       match effective_policy ct args parent ≫= (.!! "level") with
       | Some level => accepted_level level = true
       | None => True
       end →
       exc_type e = line_203_error parent_args).
Proof.
  intros Hc Hmro Hnone Hcp Hpinit H.
  assert (Horig : class_getattr ct klas "__init__"
                  = Some (MInit parent_args parent_init)).
  { unfold class_getattr, class_mro. rewrite Hc, Hmro. simpl.
    rewrite Hc. simpl. rewrite Hnone. rewrite Hcp. simpl. by rewrite Hpinit. }
  set (r := fresh (dom (st_instances st))).
  assert (Hparent : ∀ st1,
    lookup_attr P (VObj (c_id c) r) "logger" st1
      = Some (getLogger (cls_module (c_id c) +:+ "." +:+ cls_name (c_id c))) →
    ∃ e, (run_member P (MInit parent_args parent_init) (Some (init_frame P))
            (VObj (c_id c) r :: argv) kw ;;; ret (VObj (c_id c) r)) st1
         = (Raise e, st1)
         ∧ exc_type e = line_203_error parent_args).
  { intros st1 Hlg.
    destruct (init_logger_bound P parent_args (VObj (c_id c) r) st1 _ Hlg eq_refl)
      as (e & He & Hty).
    exists e. split; [| exact Hty].
    simpl run_member. rewrite bind_assoc. by rewrite (bind_raise _ _ _ _ _ He). }
  destruct (logger_view_cases P ct' klas) as [Hview | (v & Hv & Ht)].
  - destruct (constructing_instance_steps P args klas ct ct' c parent rest
                caller argv kw st Hc Hmro H Hview)
      as (st0 & _ & Hlg & _ & _ & Hcons).
    cbv zeta in Hcons. fold r in Hlg, Hcons. rewrite Horig in Hcons.
    destruct (effective_policy ct args parent ≫= (.!! "level")) as [level |].
    + destruct (checkLevel P level st0).1 as [rv | e0] eqn:Hck.
      * destruct (Hparent {| st_instances := st_instances st0;
                             st_levels :=
                               <[cls_module (c_id c) +:+ "." +:+ cls_name (c_id c)
                                 := rv]> (st_levels st0);
                             st_records := st_records st0 |})
          as (e & He & Hty); [exact Hlg |].
        rewrite He in Hcons. by eexists e, _.
      * eexists e0, st0. split; [exact Hcons |].
        intros _ Hacc.
        destruct (checkLevel_accepted P level st0 Hacc) as [rv Hrv].
        rewrite Hrv in Hck. discriminate Hck.
    + destruct (Hparent st0 Hlg) as (e & He & Hty).
      rewrite He in Hcons. by eexists e, _.
  - destruct (installed_init P args klas ct ct' c parent rest Hc Hmro H)
      as (c' & Hc' & _ & Hget).
    destruct (construct_installed_bound P ct' klas c' _ _ caller argv kw st v
                Hc' Hget Hv Ht) as (e & st' & Hcons & _).
    exists e, st'. split; [exact Hcons |].
    intros Hview. rewrite (Hview v Hv) in Ht. discriminate Ht.
Qed.

Lemma decorated_subclass_cannot_be_constructed_witness :
  ∃ e st', construct P0 (decorate_both leveled None) "Derived" (Some caller0)
             [] [] empty_store = (Raise e, st')
           ∧ ((∀ v, class_view P0 (decorate_both leveled None) "Derived" "logger"
                    = Some v → truthy v = false) →
              match effective_policy (decorate_base leveled) None "Base"
                      ≫= (.!! "level") with
              | Some level => accepted_level level = true
              | None => True
              end →
              exc_type e = line_203_error leveled).
Proof.
  apply (decorated_subclass_cannot_be_constructed P0 None "Derived" "Base"
           (decorate_base leveled) (decorate_both leveled None) Derived_class
           ["object"] (default Base_class (decorate_base leveled !! "Base"))
           leveled (Some (MFunc object_init)) (Some caller0) [] [] empty_store).
  - vm_compute; reflexivity.
  - reflexivity.
  - reflexivity.
  - vm_compute; reflexivity.
  - vm_compute; reflexivity.
  - vm_compute; reflexivity.
Defined.

Example the_subclass_raises_KeyError :
  (construct P0 (decorate_both leveled None) "Derived" (Some caller0) [] []
     empty_store).1
  = Raise (builtin_exn "KeyError" "inherit_logger").
Proof. vm_compute; reflexivity. Qed.

(** ** Interceptors built without a policy *)

(** X21. An interceptor built with no policy, or with the empty
    dictionary, stores the empty dictionary; the wrappers it builds carry
    [__loghook__] but no [__subdecorate__], and its entering and leaving
    traces do nothing. *)
Theorem interceptor_without_policy_neither_marks_nor_traces
    P k args fn lg inst st :
  policy_falsy args = true →
  i_args (LogCallBase_init k args) = Some ∅
  ∧ w_subdecorate (LogCallBase_call (LogCallBase_init k args) fn) = None
  ∧ w_loghook (LogCallBase_call (LogCallBase_init k args) fn) = true
  ∧ trace_in P (LogCallBase_init k args) lg inst st = (Normal tt, st)
  ∧ trace_out P (LogCallBase_init k args) lg inst st = (Normal tt, st).
Proof.
  intros Hfalsy.
  assert (Hinit : LogCallBase_init k args = {| i_kind := k; i_args := Some ∅ |})
    by (unfold LogCallBase_init; by rewrite Hfalsy).
  rewrite Hinit. repeat split; reflexivity.
Qed.

Lemma interceptor_without_policy_neither_marks_nor_traces_witness :
  i_args (LogCallBase_init KLogCall None) = Some ∅
  ∧ w_subdecorate (LogCallBase_call (LogCallBase_init KLogCall None) compute) = None
  ∧ w_loghook (LogCallBase_call (LogCallBase_init KLogCall None) compute) = true
  ∧ trace_in P0 (LogCallBase_init KLogCall None) (VLogger "app") job store_job
    = (Normal tt, store_job)
  ∧ trace_out P0 (LogCallBase_init KLogCall None) (VLogger "app") job store_job
    = (Normal tt, store_job).
Proof.
  apply (interceptor_without_policy_neither_marks_nor_traces P0 KLogCall None
           compute (VLogger "app") job store_job).
  reflexivity.
Defined.
